(** * ffpkg_create.py: the FFPKG trailer builder

    A shallow embedding of [src/ffpkg_create.py] and the properties of the
    FFPKG trailer format that its specification states.

    The script is a straight-line program with I/O, so it is modelled as a
    computation in a small state-and-exception monad over a [world]: the
    files by identity and the names that lead to them, the directory listing
    [os.walk] returns, the refusals the operating system makes on its own,
    and the trace of I/O operations performed so far. *)

From Stdlib Require Import NArith List Strings.Byte Lia String Ascii DecimalString.
From stdpp Require Import base list functions gmap sorting.

Local Open Scope N_scope.

(** ** Python values *)

(** A Python [str] is a sequence of Unicode code points; a [bytes] object is
    a sequence of bytes. *)
Abbreviation str := (list N).
Abbreviation bytes := (list byte).

#[global] Instance byte_eq_decision : EqDecision byte := Byte.byte_eq_dec.

(** String literals of the script, as code points. *)
Definition lit (s : string) : str := map N_of_ascii (list_ascii_of_string s).

(** Byte literals [b"..."] of the script. *)
Definition blit (s : string) : bytes := list_byte_of_string s.

(** The exceptions the script can end with. [FileNotFoundError] and
    [PermissionError] are the two subclasses of [OSError] that have a case of
    their own below; [OSError] stands for every other error of the operating
    system (a name that is too long, a full disk, ...). [SystemExit] carries
    the exit status of [sys.exit]. *)
Inductive exn :=
| ValueError
| UnicodeEncodeError
| StructError
| FileNotFoundError
| PermissionError
| OSError
| SystemExit (status : N).

Inductive result (A : Type) :=
| Ok (a : A)
| Raise (e : exn).
Arguments Ok {A} a.
Arguments Raise {A} e.

Definition is_ok {A} (r : result A) : bool :=
  match r with Ok _ => true | Raise _ => false end.

(** The byte with a given value; only used below 256. *)
Definition byte_of_N (n : N) : byte :=
  match Byte.of_N n with Some b => b | None => x00 end.

(** [s.encode("ascii")]: every code point must be below 128, otherwise
    [UnicodeEncodeError] is raised (the default error handler is strict). *)
Definition is_ascii (s : str) : bool := forallb (fun c => c <? 128) s.

Definition encode_ascii (s : str) : result bytes :=
  if is_ascii s then Ok (map byte_of_N s) else Raise UnicodeEncodeError.

(** [bytes.decode("ascii")] on bytes below 128 gives the code points back;
    the byte values are the code points. *)
Definition code_points (b : bytes) : str := map Byte.to_N b.

(** Little-endian rendering of [n] on [width] bytes (low byte first). *)
Fixpoint le_bytes (width : nat) (n : N) : bytes :=
  match width with
  | O => []
  | S k => byte_of_N (n mod 256) :: le_bytes k (n / 256)
  end.

(** The value of a little-endian byte sequence. *)
Fixpoint le_value (b : bytes) : N :=
  match b with
  | [] => 0
  | x :: rest => Byte.to_N x + 256 * le_value rest
  end.

(** [struct.pack("<H"/"<I"/"<Q", n)] for a non-negative [n]: the unsigned
    formats raise [struct.error] when [n] does not fit the field. *)
Definition struct_pack (width : nat) (n : N) : result bytes :=
  if n <? 256 ^ N.of_nat width then Ok (le_bytes width n) else Raise StructError.

Definition pack_H := struct_pack 2.
Definition pack_I := struct_pack 4.
Definition pack_Q := struct_pack 8.

(** [len(x)] as a Python integer. *)
Definition len {A} (l : list A) : N := N.of_nat (length l).

(** [str(n)] for a non-negative integer, as used by the f-strings. *)
Definition str_of_int (n : N) : str := lit (NilEmpty.string_of_uint (N.to_uint n)).

(** [s.replace("\\", "/")]: the pattern is one character, so every backslash
    (code point 92) becomes a slash (code point 47). *)
Definition replace_backslash (s : str) : str :=
  map (fun c => if c =? 92 then 47 else c) s.

(** [os.path.join(root, name)] of [posixpath]: a [name] that starts with a
    slash replaces [root]; an empty [root] or one that ends with a slash is
    extended directly; otherwise a slash is inserted. *)
Definition os_path_join (root name : str) : str :=
  match name with
  | 47 :: _ => name
  | _ =>
      match last root with
      | None | Some 47 => root ++ name
      | Some _ => root ++ [47] ++ name
      end
  end.

(** Python compares strings lexicographically by code point; a proper prefix
    is smaller. *)
Fixpoint str_leb (a b : str) : bool :=
  match a, b with
  | [], _ => true
  | _ :: _, [] => false
  | x :: a', y :: b' =>
      if x <? y then true else if y <? x then false else str_leb a' b'
  end.

Definition str_le (a b : str) : Prop := str_leb a b = true.

#[global] Instance str_le_dec a b : Decision (str_le a b).
Proof. unfold str_le. apply _. Defined.

(** [list.sort()] on a list of strings. The order is total and antisymmetric,
    so the sorted list is determined by the elements; merge sort computes
    it. *)
Definition list_sort (l : list str) : list str := merge_sort str_le l.

(** ** The operating system *)

(** A regular file: its content and whether this process may read it and
    write to it. *)
Record file := File {
  contents : bytes;
  can_read : bool;
  can_write : bool
}.

(** One item of [os.walk]: [(root, dirs, files)]. *)
Definition walk_item : Type := str * list str * list str.

(** The I/O operations the script performs, in the order they complete.
    [EvAppend] carries the bytes that reached the file. *)
Inductive event :=
| EvWalk (top : str)
| EvRead (path : str)
| EvAppend (path : str) (data : bytes)
| EvRename (src dst : str)
| EvPrint (line : str).

(** What the script can observe of the system. Files are kept by identity
    (an inode number) in [store], and [names] says which file a path leads to
    when it is opened, so that two spellings of one path, a symbolic link and
    a hard link can all name the same file. [open] follows a symbolic link
    and [os.rename] moves the link itself: [is_link] says whether a path is
    a symbolic link, and [link_after_move] which file, if any, the link
    leads to once it has been moved to another name (a relative link moved
    to another directory may lead elsewhere, or nowhere). [same_entry] says
    whether two paths, no final link followed, are the same directory entry
    or hard links of one file, which is when a rename of one to the other
    does nothing. The other fields are what the system decides on its own:
    what [os.walk] lists; which error it gives for a path opened for reading
    that leads to no file ([FileNotFoundError], [NotADirectoryError],
    [OSError] for a name longer than it allows, ...); with which error, if
    any, it refuses to create a
    file under a name (a missing parent directory, an empty name, ...) or to
    rename one name to another (a missing target directory, another device,
    ...); how many more bytes it accepts in a write (free space, a file size
    limit); and which non-ASCII characters the encoding of standard output
    has. *)
Record world := World {
  names : str -> option N;
  store : gmap N file;
  listing : str -> list walk_item;
  is_link : str -> bool;
  link_after_move : str -> str -> option N;
  same_entry : str -> str -> bool;
  absent_error : str -> exn;
  create_error : str -> option exn;
  rename_error : str -> str -> option exn;
  room : N;
  stdout_encodes : N -> bool;
  trace : list event
}.

(** The file a path names, if any: what [open] finds there. *)
Definition files (w : world) : str -> option file :=
  fun path =>
    match names w path with
    | Some i => store w !! i
    | None => None
    end.

#[global] Instance files_lookup : Lookup str file (str -> option file) :=
  fun path view => view path.

(** The inode a path names together with the file, if any. *)
Definition inode_of (w : world) (path : str) : option (N * file) :=
  match names w path with
  | Some i =>
      match store w !! i with
      | Some f => Some (i, f)
      | None => None
      end
  | None => None
  end.

Definition with_trace (tr : list event) (w : world) : world :=
  World (names w) (store w) (listing w) (is_link w) (link_after_move w)
        (same_entry w) (absent_error w) (create_error w) (rename_error w)
        (room w) (stdout_encodes w) tr.

Definition log (e : event) (w : world) : world := with_trace (trace w ++ [e]) w.

Definition set_fs (ns : str -> option N) (st : gmap N file) (w : world) : world :=
  World ns st (listing w) (is_link w) (link_after_move w) (same_entry w)
        (absent_error w) (create_error w) (rename_error w) (room w)
        (stdout_encodes w) (trace w).

(** Computations that may change the world and may raise. An exception
    leaves the world as it was when it was raised. *)
Definition M (A : Type) : Type := world -> result A * world.

Definition ret {A} (a : A) : M A := fun w => (Ok a, w).
Definition raise {A} (e : exn) : M A := fun w => (Raise e, w).
Definition bind {A B} (m : M A) (k : A -> M B) : M B :=
  fun w => match m w with
           | (Ok a, w') => k a w'
           | (Raise e, w') => (Raise e, w')
           end.
Definition lift {A} (r : result A) : M A := fun w => (r, w).

Notation "x <- m ;; k" := (bind m (fun x => k))
  (at level 100, m at next level, right associativity).
Notation "m ;;; k" := (bind m (fun _ => k))
  (at level 100, right associativity).

(** CPython refuses a path with an embedded NUL character before any system
    call is made ([ValueError: embedded null byte]). *)
Definition has_nul (path : str) : bool := existsb (N.eqb 0) path.

(** No system opens or renames a path of 65535 characters or more (the
    limit is 4096 on Linux, 1024 on macOS and 32767 on Windows): the call
    fails with [OSError] (file name too long). *)
Definition name_too_long (path : str) : bool := 65535 <=? len path.

(** [for root, dirs, files in os.walk(top)]: the items the directory tree
    yields, in the order the operating system lists them. Errors of the
    listing are ignored by [os.walk]. [top] is a command-line argument, and
    an argument cannot hold a NUL, so the [ValueError] of a name with a NUL
    has no case here. *)
Definition os_walk (top : str) : M (list walk_item) :=
  fun w => (Ok (listing w top), log (EvWalk top) w).

(** [with open(path, "rb") as fh: fh.read()]. *)
Definition read_file (path : str) : M bytes :=
  fun w =>
    if has_nul path then (Raise ValueError, w)
    else if name_too_long path then (Raise OSError, w)
    else match files w !! path with
         | None => (Raise (absent_error w path), w)
         | Some f =>
             if can_read f then (Ok (contents f), log (EvRead path) w)
             else (Raise PermissionError, w)
         end.

(** The bytes of [data] that the system accepts in a write: all of them
    when there is room, otherwise the first [room] bytes. *)
Definition accepted (w : world) (data : bytes) : bytes :=
  if len data <=? room w then data else take (N.to_nat (room w)) data.

(** [f.write(data)] and the close that ends the [with] block, on the file
    [f] with inode [i], now reached through [ns]: the accepted bytes go to
    the end of the file, and when they are not all of [data] the write
    raises [OSError] with that part left in the file. *)
Definition write_to (path : str) (data : bytes) (ns : str -> option N)
    (i : N) (f : file) : M unit :=
  fun w =>
    let part := accepted w data in
    let st := <[i := File (contents f ++ part) (can_read f) (can_write f)]> (store w) in
    let w' := log (EvAppend path part) (set_fs ns st w) in
    if len data <=? room w then (Ok tt, w') else (Raise OSError, w').

(** [with open(path, "ab") as f: f.write(data)]. Append mode never
    truncates an existing file; when no file has the name, it creates an
    empty one where the system allows that and raises the system's error
    ([FileNotFoundError] for a missing parent directory or an empty name)
    where it does not. Every name of the file sees the appended bytes. The
    other spellings of a name under which a file is created are not followed
    up: the script reaches the file through [path] alone. *)
Definition append_file (path : str) (data : bytes) : M unit :=
  fun w =>
    if has_nul path then (Raise ValueError, w)
    else if name_too_long path then (Raise OSError, w)
    else match inode_of w path with
         | Some (i, f) =>
             if can_write f then write_to path data (names w) i f w
             else (Raise PermissionError, w)
         | None =>
             match create_error w path with
             | Some e => (Raise e, w)
             | None =>
                 let i := fresh (dom (store w)) in
                 write_to path data (<[path := Some i]> (names w)) i (File [] true true) w
             end
         end.

(** [os.rename(src, dst)]. When [dst] is the directory entry of [src] or a
    hard link of its file (the same path, another spelling of it, a hard
    link) nothing happens. Otherwise the system may refuse (a missing target
    directory, ...); when it does not, [src] names nothing from now on and
    [dst] names, in place of whatever it named, the file [src] led to, or,
    when [src] is a symbolic link, whatever the moved link leads to. The
    script uses no name after the rename, so the other spellings of [src]
    and [dst] are not followed up. *)
Definition os_rename (src dst : str) : M unit :=
  fun w =>
    if has_nul src || has_nul dst then (Raise ValueError, w)
    else if name_too_long src || name_too_long dst then (Raise OSError, w)
    else match inode_of w src with
         | None => (Raise FileNotFoundError, w)
         | Some (i, f) =>
             if bool_decide (names w dst = Some i) && same_entry w src dst then
               (Ok tt, log (EvRename src dst) w)
             else
               match rename_error w src dst with
               | Some e => (Raise e, w)
               | None =>
                   let target :=
                     if is_link w src then link_after_move w src dst else Some i in
                   (Ok tt, log (EvRename src dst)
                             (set_fs (<[dst := target]> (<[src := None]> (names w)))
                                     (store w) w))
               end
         end.

(** [print(line)]. Every encoding of standard output has the ASCII
    characters; a character outside ASCII that it lacks makes [print] raise
    [UnicodeEncodeError]. *)
Definition printable (w : world) (line : str) : bool :=
  forallb (fun c => (c <? 128) || stdout_encodes w c) line.

Definition print (line : str) : M unit :=
  fun w =>
    if printable w line then (Ok tt, log (EvPrint line) w)
    else (Raise UnicodeEncodeError, w).

(** ** The script *)

Definition VERSION : N := 1.

(** Lines 25-30: the paths of all files below [SCE_SYS_PATH], in walk
    order. *)
Definition joined_paths (items : list walk_item) : list str :=
  flat_map (fun '(root, dirs, names) =>
              map (fun name => replace_backslash (os_path_join root name)) names)
           items.

(** Line 53: [f"  + {full_path} ({file_size} bytes)"]. *)
Definition entry_line (full_path : str) (file_size : N) : str :=
  lit "  + " ++ full_path ++ lit " (" ++ str_of_int file_size ++ lit " bytes)".

(** Lines 38-53: one iteration of the entry loop, extending the buffer
    [sce_entries] with the record of [full_path]. *)
Definition encode_entry (sce_entries : bytes) (full_path : str) : M bytes :=
  path_bytes <- lift (encode_ascii full_path) ;;
  let path_len := len path_bytes + 1 in
  file_data <- read_file full_path ;;
  let file_size := len file_data in
  let sce_entries := sce_entries ++ file_data in
  size_field <- lift (pack_Q file_size) ;;
  let sce_entries := sce_entries ++ size_field in
  let sce_entries := sce_entries ++ (path_bytes ++ [x00]) in
  len_field <- lift (pack_H path_len) ;;
  let sce_entries := sce_entries ++ len_field in
  print (entry_line full_path file_size) ;;;
  ret sce_entries.

(** Lines 36-53: the loop over the sorted paths. *)
Fixpoint encode_entries (sce_entries : bytes) (sce_sys_files : list str) : M bytes :=
  match sce_sys_files with
  | [] => ret sce_entries
  | full_path :: rest =>
      sce_entries <- encode_entry sce_entries full_path ;;
      encode_entries sce_entries rest
  end.

(** Lines 34-63: the trailer for the sorted paths [sce_sys_files]. *)
Definition assemble_trailer (TITLE_ID : str) (sce_sys_files : list str) : M bytes :=
  let file_count := len sce_sys_files in
  sce_entries <- encode_entries [] sce_sys_files ;;
  let magic := blit "ffpkg" in
  version <- lift (pack_H VERSION) ;;
  title <- lift (encode_ascii TITLE_ID) ;;
  file_count_bytes <- lift (pack_I file_count) ;;
  ret (sce_entries ++ file_count_bytes ++ title ++ version ++ magic).

(** Lines 22-63: the length check, the walk, the sort and the assembly. *)
Definition build_trailer (TITLE_ID SCE_SYS_PATH : str) : M bytes :=
  if negb (len TITLE_ID =? 9) then raise ValueError
  else
    items <- os_walk SCE_SYS_PATH ;;
    assemble_trailer TITLE_ID (list_sort (joined_paths items)).

(** Line 70: the final message, a newline, "Done", an em dash (U+2014) and
    the output name. *)
Definition done_line (OUTPUT_FILE : str) : str :=
  [10] ++ lit "Done " ++ [8212] ++ lit " " ++ OUTPUT_FILE ++ lit " written".

(** Lines 22-70: the script once its four arguments are bound. *)
Definition create (TITLE_ID SCE_SYS_PATH INPUT_FILE OUTPUT_FILE : str) : M unit :=
  trailer <- build_trailer TITLE_ID SCE_SYS_PATH ;;
  append_file INPUT_FILE trailer ;;;
  os_rename INPUT_FILE OUTPUT_FILE ;;;
  print (done_line OUTPUT_FILE).

(** Lines 9-20: the argument check. [argv] includes the script name. *)
Definition usage : M unit :=
  print (lit "Usage: python ffpkg_create.py <TITLE_ID> <SCE_SYS_PATH> <INPUT_FILE> <OUTPUT_FILE>") ;;;
  print [] ;;;
  print (lit "Examples:") ;;;
  print (lit "  python ffpkg_create.py PPSA10240 sce_sys snake.img snake.ffpkg") ;;;
  print (lit "  python ffpkg_create.py PPSA12345 custom_sce game.img game.ffpkg") ;;;
  raise (SystemExit 1).

Definition main (argv : list str) : M unit :=
  match argv with
  | [_; TITLE_ID; SCE_SYS_PATH; INPUT_FILE; OUTPUT_FILE] =>
      create TITLE_ID SCE_SYS_PATH INPUT_FILE OUTPUT_FILE
  | _ => usage
  end.

(** ** The format, in the words of the specification *)

(** [LE16], [LE32] and [LE64] of the specification: the little-endian
    rendering on 2, 4 and 8 bytes. *)
Definition LE16 : N -> bytes := le_bytes 2.
Definition LE32 : N -> bytes := le_bytes 4.
Definition LE64 : N -> bytes := le_bytes 8.

(** Section 4.1: [content ++ LE64(len(content)) ++ path_bytes ++ 0x00 ++
    LE16(len(path_bytes)+1)]. *)
Definition spec_entry (path_bytes content : bytes) : bytes :=
  content ++ LE64 (len content) ++ path_bytes ++ [x00] ++ LE16 (len path_bytes + 1).

(** Section 3, the footer: [file_count], [title_id], [version], [magic]. *)
Definition spec_footer (count : N) (title_id_bytes : bytes) : bytes :=
  LE32 count ++ title_id_bytes ++ LE16 VERSION ++ blit "ffpkg".

(** Section 4.2: [concat(encode(entry) for entry in order) ++ LE32(count) ++
    title_id_bytes ++ LE16(version) ++ b"ffpkg"], entries given as
    (path bytes, content) pairs. *)
Definition spec_entries (es : list (bytes * bytes)) : bytes :=
  concat (map (fun e => spec_entry (fst e) (snd e)) es).

Definition spec_trailer (es : list (bytes * bytes)) (title_id_bytes : bytes) : bytes :=
  spec_entries es ++ spec_footer (len es) title_id_bytes.

(** The (path, content) pairs the script encodes for a list of paths: the
    content of each path is what the world holds there. *)
Definition content_of (w : world) (path : str) : bytes :=
  match files w !! path with Some f => contents f | None => [] end.

Definition entries_of (w : world) (paths : list str) : list (bytes * bytes) :=
  map (fun p => (map byte_of_N p, content_of w p)) paths.

(** ** The implied decoder *)

Inductive format_error :=
| BadMagic
| UnsupportedVersion
| CorruptEntry.

(** What a reader recovers from a container. *)
Record container := Container {
  image : bytes;
  entries : list (str * bytes);
  title_id : str;
  version : N
}.

(** [n] bytes of [buf] starting at offset [start]. *)
Definition segment (buf : bytes) (start n : N) : bytes :=
  take (N.to_nat n) (drop (N.to_nat start) buf).

(** Modelled from the spec: one backward read of section 4.4. The cursor
    moves back by [n] bytes and those bytes are returned; a position before
    the start of the file is [FormatError: corrupt entry] (step 6). *)
Definition step_back (buf : bytes) (cursor n : N) : format_error + (bytes * N) :=
  if n <=? cursor then inr (segment buf (cursor - n) n, cursor - n)
  else inl CorruptEntry.

(** Modelled from the spec: "strip trailing NUL" of step 5 removes the one
    terminator that [path_len] counts. *)
Definition strip_nul (p : bytes) : bytes :=
  match last p with
  | Some x00 => removelast p
  | _ => p
  end.

(** Modelled from the spec: step 5 of section 4.4, [count] iterations from
    [cursor] backward. The reader meets the last record first, so each
    decoded entry is put in front of those already decoded, which leaves the
    entries in the order they have in the file. *)
Fixpoint decode_entries (buf : bytes) (count : nat) (cursor : N)
    (acc : list (str * bytes)) : format_error + (list (str * bytes) * N) :=
  match count with
  | O => inr (acc, cursor)
  | S k =>
      match step_back buf cursor 2 with
      | inl e => inl e
      | inr (len_field, cursor) =>
          let path_len := le_value len_field in
          match step_back buf cursor path_len with
          | inl e => inl e
          | inr (path, cursor) =>
              match step_back buf cursor 8 with
              | inl e => inl e
              | inr (size_field, cursor) =>
                  let file_size := le_value size_field in
                  match step_back buf cursor file_size with
                  | inl e => inl e
                  | inr (file_data, cursor) =>
                      decode_entries buf k cursor
                        ((code_points (strip_nul path), file_data) :: acc)
                  end
              end
          end
      end
  end.

(** Modelled from the spec: the reader of section 4.4 (the repository has no
    decoder). Steps 1-4 read the footer from the end of the file, step 5
    reads the entries, and the final cursor is the end of the image. *)
Definition decode (buf : bytes) : format_error + container :=
  match step_back buf (len buf) 5 with
  | inl _ => inl BadMagic
  | inr (magic, cursor) =>
      if negb (bool_decide (magic = blit "ffpkg")) then inl BadMagic
      else
        match step_back buf cursor 2 with
        | inl e => inl e
        | inr (version_field, cursor) =>
            if negb (le_value version_field =? 1) then inl UnsupportedVersion
            else
              match step_back buf cursor 9 with
              | inl e => inl e
              | inr (title, cursor) =>
                  match step_back buf cursor 4 with
                  | inl e => inl e
                  | inr (count_field, cursor) =>
                      match decode_entries buf (N.to_nat (le_value count_field)) cursor [] with
                      | inl e => inl e
                      | inr (es, cursor) =>
                          inr (Container (segment buf 0 cursor) es
                                         (code_points title) (le_value version_field))
                      end
                  end
              end
        end
  end.

(** ** Auxiliary notions *)

(** What one iteration of the entry loop needs of a path to succeed. *)
Definition entry_fits (w : world) (p : str) : Prop :=
  is_ascii p = true /\ has_nul p = false /\
  exists f, files w !! p = Some f /\ can_read f = true /\
            len (contents f) < 2 ^ 64 /\ len p + 1 < 2 ^ 16.

(** A computation that leaves the system as it is, its trace apart. *)
Definition keeps_system {A} (m : M A) : Prop :=
  forall w, exists tr, snd (m w) = with_trace tr w.

(** The image after the trailer has been appended to it; a missing image is
    created by the append. *)
Definition appended (image : option file) (trailer : bytes) : file :=
  match image with
  | Some f => File (contents f ++ trailer) (can_read f) (can_write f)
  | None => File trailer true true
  end.

(** An encoded entry whose two length fields fit. *)
Definition fits_fields (e : bytes * bytes) : Prop :=
  len (fst e) + 1 < 2 ^ 16 /\ len (snd e) < 2 ^ 64.

(** What the reader makes of the entries of a trailer. *)
Definition decoded_entries (es : list (bytes * bytes)) : list (str * bytes) :=
  map (fun e => (code_points (fst e), snd e)) es.

(** The claim that the iteration on [path] is ended by the [struct.error]
    of the [<H] packing on line 51. *)
Definition refused_at_packing (sce_entries : bytes) (path : str) (w : world) : Prop :=
  exists w', encode_entry sce_entries path w = (Raise StructError, w').



(** ** Example worlds *)

Definition no_listing : str -> list walk_item := fun _ => [].

(** A system that holds the given files, each under its one name and none
    of them a symbolic link, lists directories as [ls] says, lets any file
    be created and renamed, has room for 2^32 more bytes and a standard
    output that encodes every character. *)
Definition world_of (fs : list (str * file)) (ls : str -> list walk_item) : world :=
  World (fun path => (fun hit => N.of_nat (fst hit)) <$> list_find (fun kv => fst kv = path) fs)
        (list_to_map (imap (fun k kv => (N.of_nat k, snd kv)) fs))
        ls (fun _ => false) (fun _ _ => None)
        (fun a b => bool_decide (a = b)) (fun _ => FileNotFoundError)
        (fun _ => None) (fun _ _ => None) (2 ^ 32) (fun _ => true) [].

(** The scenario of the specification: one file [a.txt] holding [b"hi"]. *)
Definition scenario_world : world :=
  world_of [(lit "a.txt", File (blit "hi") true true)] no_listing.

(** A path of 65535 characters, one more than a 16-bit [path_len] can
    count with its terminator. *)
Definition long_path : str := replicate (N.to_nat 65535) 97.

Definition long_world : world :=
  world_of [] (fun top => [(top, [], [long_path])]).

(** A directory [sce_sys] with two files and a subdirectory holding an empty
    file, next to the image [snake.img]. *)
Definition example_files : list (str * file) :=
  [(lit "sce_sys/param.json", File (blit "{}") true true);
   (lit "sce_sys/icon0.png", File (blit "PNG") true true);
   (lit "sce_sys/about/empty", File [] true true);
   (lit "snake.img", File (blit "IMAGE") true true)].

Definition example_listing (top : str) : list walk_item :=
  if bool_decide (top = lit "sce_sys") then
    [(lit "sce_sys", [lit "about"], [lit "param.json"; lit "icon0.png"]);
     (lit "sce_sys/about", [], [lit "empty"])]
  else [].

(** The same directory, listed in another order. *)
Definition example_listing_reordered (top : str) : list walk_item :=
  if bool_decide (top = lit "sce_sys") then
    [(lit "sce_sys", [lit "about"], [lit "icon0.png"; lit "param.json"]);
     (lit "sce_sys/about", [], [lit "empty"])]
  else [].

Definition example_world : world := world_of example_files example_listing.
Definition example_world_reordered : world :=
  world_of example_files example_listing_reordered.

(** The same auxiliary files listed in another order, next to another
    image. *)
Definition example_world_other_image : world :=
  world_of [(lit "snake.img", File (blit "ANOTHER IMAGE") true true);
            (lit "sce_sys/about/empty", File [] true true);
            (lit "sce_sys/icon0.png", File (blit "PNG") true true);
            (lit "sce_sys/param.json", File (blit "{}") true true)]
           example_listing_reordered.

(** A directory with a file whose name has the non-ASCII letter U+00E9. *)
Definition non_ascii_name : str := 233 :: lit ".txt".

Definition non_ascii_world : world :=
  world_of [(lit "d/" ++ non_ascii_name, File (blit "x") true true);
            (lit "img", File (blit "IMAGE") true true)]
           (fun top => [(top, [], [non_ascii_name])]).

(** A listing that yields a name with an embedded NUL. *)
Definition nul_name : str := lit "a" ++ [0] ++ lit "b".

Definition nul_world : world :=
  world_of [(lit "img", File (blit "IMAGE") true true)]
           (fun top => [(top, [], [nul_name])]).


(** The image inside the directory it is attached to, named on the command
    line by another spelling of its path: [./d/img] and [d/img] lead to one
    file. *)
Definition other_spelling_world : world :=
  let spelling path := bool_decide (path = lit "d/img" \/ path = lit "./d/img") in
  World (fun path => if spelling path then Some 0 else None)
        {[ 0 := File (blit "IMAGE") true true ]}
        (fun top => [(top, [], [lit "img"])])
        (fun _ => false) (fun _ _ => None)
        (fun a b => bool_decide (a = b) || spelling a && spelling b)
        (fun _ => FileNotFoundError)
        (fun _ => None) (fun _ _ => None) (2 ^ 32) (fun _ => true) [].

(** The image named through a relative symbolic link: [link.img] leads to
    [real.img] beside it, and leads nowhere once it is moved into another
    directory. *)
Definition linked_image_world : world :=
  let image path := bool_decide (path = lit "real.img" \/ path = lit "link.img") in
  World (fun path => if image path then Some 0 else None)
        {[ 0 := File (blit "IMAGE") true true ]}
        no_listing
        (fun path => bool_decide (path = lit "link.img")) (fun _ _ => None)
        (fun a b => bool_decide (a = b)) (fun _ => FileNotFoundError)
        (fun _ => None) (fun _ _ => None) (2 ^ 32) (fun _ => true) [].




(** The sorted paths of the example directory and the trailer the script
    assembles for them. *)
Definition example_paths : list str :=
  list_sort (joined_paths (example_listing (lit "sce_sys"))).

Definition example_trailer : bytes :=
  match fst (assemble_trailer (lit "PPSA10240") example_paths example_world) with
  | Ok t => t
  | Raise _ => []
  end.

(** ** Further notions *)

(** Lines 15-19: the lines of the usage message, in order. *)
Definition usage_lines : list str :=
  [lit "Usage: python ffpkg_create.py <TITLE_ID> <SCE_SYS_PATH> <INPUT_FILE> <OUTPUT_FILE>";
   [];
   lit "Examples:";
   lit "  python ffpkg_create.py PPSA10240 sce_sys snake.img snake.ffpkg";
   lit "  python ffpkg_create.py PPSA12345 custom_sce game.img game.ffpkg"].

(** The I/O of one successful iteration of the entry loop on [p]: the file
    is read, then its line is printed. *)
Definition entry_events (w : world) (p : str) : list event :=
  [EvRead p; EvPrint (entry_line p (len (content_of w p)))].



(** A directory [d] with one file, next to the image [img]. *)
Definition one_file_world : world :=
  world_of [(lit "d/a.txt", File (blit "hi") true true);
            (lit "img", File (blit "IMAGE") true true)]
           (fun top => [(top, [], [lit "a.txt"])]).

(** Nine characters, the last one the non-ASCII letter U+00E9. *)
Definition non_ascii_title : str := lit "PPSA1024" ++ [233].

(** A directory listing with a Windows-style root and a name that holds a
    backslash. *)
Definition backslash_items : list walk_item :=
  [(lit "sce_sys\trophy", [], [lit "a\b.png"; lit "c.png"])].

(** * Properties *)

(** ** Bytes and little-endian fields *)

Lemma to_N_byte_of_N n : n < 256 -> Byte.to_N (byte_of_N n) = n.
Proof.
  intros Hn. unfold byte_of_N.
  destruct (Byte.of_N n) as [b|] eqn:E.
  - by apply Byte.to_of_N.
  - apply Byte.of_N_None_iff in E. lia.
Qed.

Lemma byte_of_N_to_N b : byte_of_N (Byte.to_N b) = b.
Proof. unfold byte_of_N. by rewrite Byte.of_to_N. Qed.

Lemma length_le_bytes width n : length (le_bytes width n) = width.
Proof. revert n. induction width as [|k IH]; intros n; simpl; [done|]. by rewrite IH. Qed.

Lemma le_value_le_bytes width n :
  n < 256 ^ N.of_nat width -> le_value (le_bytes width n) = n.
Proof.
  revert n. induction width as [|k IH]; intros n Hn.
  - simpl in *. lia.
  - cbn [le_bytes le_value].
    rewrite to_N_byte_of_N by (apply N.mod_lt; lia).
    rewrite IH.
    + rewrite (N.div_mod n 256) at 3 by lia. lia.
    + rewrite Nat2N.inj_succ, N.pow_succ_r' in Hn.
      apply N.Div0.div_lt_upper_bound. lia.
Qed.

Lemma struct_pack_ok width n b :
  struct_pack width n = Ok b <-> n < 256 ^ N.of_nat width /\ b = le_bytes width n.
Proof.
  unfold struct_pack. destruct (N.ltb_spec n (256 ^ N.of_nat width)); split.
  - intros [= <-]. done.
  - intros [_ ->]. done.
  - done.
  - intros [? _]. lia.
Qed.

Lemma struct_pack_raise width n e :
  struct_pack width n = Raise e <-> 256 ^ N.of_nat width <= n /\ e = StructError.
Proof.
  unfold struct_pack. destruct (N.ltb_spec n (256 ^ N.of_nat width)); split.
  - done.
  - intros [? _]. lia.
  - intros [= <-]. done.
  - intros [_ ->]. done.
Qed.

Lemma len_app {A} (l1 l2 : list A) : len (l1 ++ l2) = len l1 + len l2.
Proof. unfold len. rewrite length_app. lia. Qed.

Lemma len_le_bytes width n : len (le_bytes width n) = N.of_nat width.
Proof. unfold len. by rewrite length_le_bytes. Qed.

(** ** ASCII *)

Lemma is_ascii_Forall s : is_ascii s = true <-> Forall (fun c => c < 128) s.
Proof.
  unfold is_ascii. rewrite forallb_forall, Forall_forall.
  split; intros H c Hc.
  - apply N.ltb_lt, H. by apply list_elem_of_In.
  - apply N.ltb_lt, H. by apply list_elem_of_In.
Qed.

Lemma encode_ascii_ok s b :
  encode_ascii s = Ok b <-> is_ascii s = true /\ b = map byte_of_N s.
Proof.
  unfold encode_ascii. destruct (is_ascii s); split; try done.
  - intros [= <-]. done.
  - intros [_ ->]. done.
  - intros [? _]. done.
Qed.

Lemma encode_ascii_raise s e :
  encode_ascii s = Raise e <-> is_ascii s = false /\ e = UnicodeEncodeError.
Proof.
  unfold encode_ascii. destruct (is_ascii s); split; try done.
  - intros [? _]. done.
  - intros [= <-]. done.
  - intros [_ ->]. done.
Qed.

Lemma code_points_encode s :
  is_ascii s = true -> code_points (map byte_of_N s) = s.
Proof.
  rewrite is_ascii_Forall. unfold code_points.
  induction 1 as [|c s Hc _ IH]; simpl; [done|].
  rewrite to_N_byte_of_N by lia. by rewrite IH.
Qed.

Lemma is_ascii_app s1 s2 : is_ascii (s1 ++ s2) = is_ascii s1 && is_ascii s2.
Proof. apply forallb_app. Qed.

Lemma is_ascii_digits u : is_ascii (lit (NilEmpty.string_of_uint u)) = true.
Proof. induction u as [|u IH|u IH|u IH|u IH|u IH|u IH|u IH|u IH|u IH|u IH]; by simpl. Qed.

Lemma is_ascii_entry_line p n : is_ascii p = true -> is_ascii (entry_line p n) = true.
Proof.
  intros Hp. unfold entry_line, str_of_int.
  by rewrite !is_ascii_app, Hp, is_ascii_digits.
Qed.

(** ** Printing *)

Lemma printable_ascii w line : is_ascii line = true -> printable w line = true.
Proof.
  unfold is_ascii, printable. rewrite !forallb_forall.
  intros H c Hc. by rewrite (H c Hc).
Qed.

Lemma print_ok line w w' :
  print line w = (Ok tt, w') <-> printable w line = true /\ w' = log (EvPrint line) w.
Proof.
  unfold print. destruct (printable w line); split; try done.
  - by intros [= <-].
  - by intros [_ ->].
  - by intros [? _].
Qed.

Lemma print_ascii line w :
  is_ascii line = true -> print line w = (Ok tt, log (EvPrint line) w).
Proof. intros H. apply print_ok. split; [by apply printable_ascii | done]. Qed.

Lemma print_files line w : files (snd (print line w)) = files w.
Proof. unfold print. by destruct (printable w line). Qed.

(** ** Sorting *)

Lemma str_le_total : Total str_le.
Proof.
  intros a. unfold str_le. induction a as [|x a IH]; intros [|y b]; simpl; auto.
  destruct (N.ltb_spec x y), (N.ltb_spec y x); auto; lia.
Qed.

Lemma str_le_trans : Transitive str_le.
Proof.
  intros a. unfold str_le.
  induction a as [|x a IH]; intros [|y b] [|z c]; simpl; try done.
  destruct (N.ltb_spec x y), (N.ltb_spec y x), (N.ltb_spec y z), (N.ltb_spec z y),
    (N.ltb_spec x z), (N.ltb_spec z x); try done; try lia.
  apply IH.
Qed.

Lemma str_le_antisym : AntiSymm (=) str_le.
Proof.
  intros a. unfold str_le.
  induction a as [|x a IH]; intros [|y b]; simpl; try done.
  destruct (N.ltb_spec x y), (N.ltb_spec y x); try done; try lia.
  intros Hab Hba. f_equal; [lia | by apply IH].
Qed.

#[local] Existing Instances str_le_total str_le_trans str_le_antisym.

Lemma list_sort_Permutation l : list_sort l ≡ₚ l.
Proof. apply merge_sort_Permutation. Qed.

Lemma list_sort_Sorted l : Sorted str_le (list_sort l).
Proof. apply (Sorted_merge_sort str_le). Qed.

(** The sorted list depends on the elements only, not on their order. *)
Lemma list_sort_order_independent l1 l2 :
  l1 ≡ₚ l2 -> list_sort l1 = list_sort l2.
Proof.
  intros Hperm. apply (Sorted_unique str_le); try apply list_sort_Sorted.
  by rewrite !list_sort_Permutation.
Qed.

(** ** The entry loop *)

Lemma bind_ok {A B} (m : M A) (k : A -> M B) w b w' :
  bind m k w = (Ok b, w') <->
  exists a w1, m w = (Ok a, w1) /\ k a w1 = (Ok b, w').
Proof.
  unfold bind. destruct (m w) as [[a|e] w1]; split.
  - intros H. by exists a, w1.
  - intros (a' & w1' & [= -> ->] & H). done.
  - done.
  - intros (a' & w1' & [=] & _).
Qed.

Lemma read_file_ok path w d w' :
  read_file path w = (Ok d, w') <->
  exists f, has_nul path = false /\ name_too_long path = false /\
            files w !! path = Some f /\ can_read f = true
            /\ d = contents f /\ w' = log (EvRead path) w.
Proof.
  unfold read_file. destruct (has_nul path).
  { split; [done | by intros (f & ? & _)]. }
  destruct (name_too_long path).
  { split; [done | by intros (f & _ & ? & _)]. }
  destruct (files w !! path) as [f|].
  2:{ split; [done | by intros (f & _ & _ & ? & _)]. }
  destruct (can_read f) eqn:Hr; split.
  - intros [= <- <-]. by exists f.
  - intros (f' & _ & _ & [= <-] & _ & -> & ->). done.
  - done.
  - intros (f' & _ & _ & [= <-] & ? & _). congruence.
Qed.

Lemma read_file_files path w : files (snd (read_file path w)) = files w.
Proof.
  unfold read_file. destruct (has_nul path); [done|].
  destruct (name_too_long path); [done|].
  destruct (files w !! path) as [f|]; [|done]. by destruct (can_read f).
Qed.

Lemma fits_not_too_long p : len p + 1 < 2 ^ 16 -> name_too_long p = false.
Proof. intros H. unfold name_too_long. apply N.leb_gt. lia. Qed.

Lemma len_map {A B} (f : A -> B) (l : list A) : len (map f l) = len l.
Proof. unfold len. by rewrite length_map. Qed.

(** One iteration succeeds exactly when the path is ASCII without NUL, the
    file can be read and both length fields fit; the buffer then grows by the
    record of section 4.1. *)
Lemma encode_entry_ok acc p w r w' :
  encode_entry acc p w = (Ok r, w') <->
  exists f,
    is_ascii p = true /\ has_nul p = false /\
    files w !! p = Some f /\ can_read f = true /\
    len (contents f) < 2 ^ 64 /\ len p + 1 < 2 ^ 16 /\
    r = acc ++ spec_entry (map byte_of_N p) (contents f) /\
    w' = log (EvPrint (entry_line p (len (contents f)))) (log (EvRead p) w).
Proof.
  unfold encode_entry. rewrite bind_ok. split.
  - intros (pb & w1 & Hpb & H). unfold lift in Hpb. injection Hpb as Hpb <-.
    apply encode_ascii_ok in Hpb as [Hascii ->].
    apply bind_ok in H as (d & w2 & Hread & H).
    apply read_file_ok in Hread as (f & Hnul & _ & Hf & Hr & -> & ->).
    apply bind_ok in H as (q & w3 & Hq & H). unfold lift in Hq. injection Hq as Hq <-.
    apply struct_pack_ok in Hq as [Hq ->].
    apply bind_ok in H as (h & w4 & Hh & H). unfold lift in Hh. injection Hh as Hh <-.
    apply struct_pack_ok in Hh as [Hh ->].
    apply bind_ok in H as ([] & w5 & Hp & H). apply print_ok in Hp as [_ ->].
    unfold ret in H. injection H as <- <-.
    rewrite len_map in Hh.
    exists f. repeat split; try done.
    unfold spec_entry, LE64, LE16. rewrite len_map. by rewrite <- !app_assoc.
  - intros (f & Hascii & Hnul & Hf & Hr & Hq & Hh & -> & ->).
    exists (map byte_of_N p), w. split.
    { unfold lift. f_equal. by apply encode_ascii_ok. }
    apply bind_ok. exists (contents f), (log (EvRead p) w). split.
    { apply read_file_ok. exists f. repeat split; try done. by apply fits_not_too_long. }
    apply bind_ok. eexists _, _. split.
    { unfold lift. f_equal. by apply struct_pack_ok. }
    apply bind_ok. eexists _, _. split.
    { unfold lift. f_equal. apply struct_pack_ok. by rewrite len_map. }
    apply bind_ok. eexists tt, _. split; [by apply print_ascii, is_ascii_entry_line|].
    unfold ret, spec_entry, LE64, LE16. rewrite len_map. by rewrite <- !app_assoc.
Qed.

Lemma encode_entry_files acc p w : files (snd (encode_entry acc p w)) = files w.
Proof.
  unfold encode_entry, bind, lift.
  destruct (encode_ascii p) as [pb|e]; [|done].
  pose proof (read_file_files p w) as Hfiles.
  destruct (read_file p w) as [[d|e] w1]; simpl in Hfiles; [|done].
  destruct (pack_Q (len d)); [|done].
  destruct (pack_H (len pb + 1)); [|done].
  unfold print. by destruct (printable w1 _).
Qed.

Lemma encode_entries_files ps : forall acc w,
  files (snd (encode_entries acc ps w)) = files w.
Proof.
  induction ps as [|p ps IH]; intros acc w; [done|].
  cbn [encode_entries]. unfold bind.
  pose proof (encode_entry_files acc p w) as Hfiles.
  destruct (encode_entry acc p w) as [[r|e] w1]; simpl in Hfiles; [|done].
  by rewrite IH.
Qed.

Lemma entry_fits_files w1 w2 p :
  files w1 = files w2 -> entry_fits w1 p -> entry_fits w2 p.
Proof. unfold entry_fits. by intros ->. Qed.

Lemma entries_of_files w1 w2 ps :
  files w1 = files w2 -> entries_of w1 ps = entries_of w2 ps.
Proof. unfold entries_of, content_of. by intros ->. Qed.

(** The loop succeeds exactly when every path fits, and then the buffer has
    grown by the records of the paths, in order. *)
Lemma encode_entries_ok ps : forall acc w r w',
  encode_entries acc ps w = (Ok r, w') ->
  Forall (entry_fits w) ps /\ r = acc ++ spec_entries (entries_of w ps).
Proof.
  induction ps as [|p ps IH]; intros acc w r w' H.
  - injection H as <- <-. split; [constructor|]. unfold spec_entries. simpl. by rewrite app_nil_r.
  - cbn [encode_entries] in H. apply bind_ok in H as (r1 & w1 & H1 & H).
    pose proof (encode_entry_files acc p w) as Hfiles. rewrite H1 in Hfiles. simpl in Hfiles.
    apply encode_entry_ok in H1 as (f & Hascii & Hnul & Hf & Hr & Hq & Hh & -> & _).
    apply IH in H as [Hall ->]. split.
    + constructor.
      * repeat split; try done. by exists f.
      * eapply Forall_impl; [exact Hall|]. intros q. by apply entry_fits_files.
    + rewrite (entries_of_files w1 w ps Hfiles).
      unfold spec_entries, entries_of at 2, content_of. cbn [map concat fst snd].
      rewrite Hf. by rewrite <- !app_assoc.
Qed.

Lemma encode_entries_total ps : forall acc w,
  Forall (entry_fits w) ps ->
  exists w', encode_entries acc ps w = (Ok (acc ++ spec_entries (entries_of w ps)), w')
             /\ files w' = files w.
Proof.
  induction ps as [|p ps IH]; intros acc w Hall.
  - exists w. unfold spec_entries. simpl. by rewrite app_nil_r.
  - apply Forall_cons in Hall as [(Hascii & Hnul & f & Hf & Hr & Hq & Hh) Hall].
    set (w1 := log (EvPrint (entry_line p (len (contents f)))) (log (EvRead p) w)).
    destruct (IH (acc ++ spec_entry (map byte_of_N p) (contents f)) w1) as (w' & Hrun & Hfiles).
    { eapply Forall_impl; [exact Hall|]. intros q. by apply entry_fits_files. }
    exists w'. split; [|done].
    cbn [encode_entries]. apply bind_ok. eexists _, w1. split.
    { apply encode_entry_ok. by exists f. }
    rewrite Hrun. do 2 f_equal.
    rewrite (entries_of_files w1 w ps eq_refl).
    unfold spec_entries, entries_of at 2, content_of. cbn [map concat fst snd].
    rewrite Hf. by rewrite <- !app_assoc.
Qed.

(** ** The trailer *)

Lemma len_entries_of w ps : len (entries_of w ps) = len ps.
Proof. unfold entries_of. apply len_map. Qed.

Lemma assemble_trailer_ok title ps w t w' :
  assemble_trailer title ps w = (Ok t, w') ->
  Forall (entry_fits w) ps /\ is_ascii title = true /\ len ps < 2 ^ 32 /\
  t = spec_trailer (entries_of w ps) (map byte_of_N title) /\
  files w' = files w.
Proof.
  unfold assemble_trailer. intros H.
  apply bind_ok in H as (es & w1 & Hes & H).
  pose proof (encode_entries_files ps [] w) as Hfiles. rewrite Hes in Hfiles. simpl in Hfiles.
  apply encode_entries_ok in Hes as [Hall ->].
  apply bind_ok in H as (v & w2 & Hv & H). unfold lift in Hv.
  change (pack_H VERSION) with (Ok (A:=bytes) (LE16 VERSION)) in Hv. injection Hv as <- <-.
  apply bind_ok in H as (tb & w3 & Htb & H). unfold lift in Htb. injection Htb as Htb <-.
  apply encode_ascii_ok in Htb as [Hascii ->].
  apply bind_ok in H as (c & w4 & Hc & H). unfold lift in Hc. injection Hc as Hc <-.
  apply struct_pack_ok in Hc as [Hc ->].
  injection H as <- <-.
  repeat split; try done.
  unfold spec_trailer, spec_footer, LE32, LE16. by rewrite len_entries_of.
Qed.

Lemma assemble_trailer_total title ps w :
  Forall (entry_fits w) ps -> is_ascii title = true -> len ps < 2 ^ 32 ->
  exists w', assemble_trailer title ps w
             = (Ok (spec_trailer (entries_of w ps) (map byte_of_N title)), w')
             /\ files w' = files w.
Proof.
  intros Hall Hascii Hcount.
  destruct (encode_entries_total ps [] w Hall) as (w' & Hrun & Hfiles).
  exists w'. split; [|done].
  unfold assemble_trailer. apply bind_ok. eexists _, w'. split; [exact Hrun|].
  apply bind_ok. eexists _, w'. split; [reflexivity|].
  apply bind_ok. eexists _, w'. split.
  { unfold lift. f_equal. by apply encode_ascii_ok. }
  apply bind_ok. eexists _, w'. split.
  { unfold lift. f_equal. by apply struct_pack_ok. }
  unfold ret, spec_trailer, spec_footer, LE32, LE16. by rewrite len_entries_of.
Qed.

(** ** Entry encoding *)

(** C2. Entry encoding: for a path that encodes as ASCII and the content the
    file holds, whenever an iteration of the entry loop yields a record, the
    buffer has grown by exactly
    [content ++ LE64(len(content)) ++ path_bytes ++ 0x00 ++ LE16(len(path_bytes)+1)],
    and the [path_len] field has the value [len(path_bytes)+1], the
    terminator included; the iteration does yield that record whenever the
    file can be opened and both length fields fit. *)
Theorem entry_encoding (w : world) (sce_entries : bytes) (path : str) (f : file) :
  is_ascii path = true ->
  files w !! path = Some f ->
  let content := contents f in
  let path_bytes := map byte_of_N path in
  let record :=
    content ++ LE64 (len content) ++ path_bytes ++ [x00] ++ LE16 (len path_bytes + 1) in
  (forall r w', encode_entry sce_entries path w = (Ok r, w') ->
     r = sce_entries ++ record /\ le_value (LE16 (len path_bytes + 1)) = len path_bytes + 1)
  /\ (has_nul path = false -> can_read f = true ->
      len content < 2 ^ 64 -> len path + 1 < 2 ^ 16 ->
      exists w', encode_entry sce_entries path w = (Ok (sce_entries ++ record), w')).
Proof.
  intros Hascii Hf content path_bytes record. split.
  - intros r w' H. apply encode_entry_ok in H as (f' & _ & _ & Hf' & _ & _ & Hh & -> & _).
    rewrite Hf in Hf'. injection Hf' as <-. split; [done|].
    apply le_value_le_bytes. unfold path_bytes. by rewrite len_map.
  - intros Hnul Hr Hq Hh. eexists. apply encode_entry_ok. by exists f.
Qed.

Lemma entry_encoding_witness :
  fst (encode_entry [] (lit "a.txt") scenario_world)
  = Ok (blit "hi" ++ LE64 2 ++ blit "a.txt" ++ [x00] ++ LE16 6).
Proof.
  destruct (entry_encoding scenario_world [] (lit "a.txt") (File (blit "hi") true true)
              eq_refl eq_refl) as [_ Hex].
  destruct Hex as [w' Hw']; [reflexivity | reflexivity | reflexivity | reflexivity |].
  rewrite Hw'. reflexivity.
Defined.

Lemma encode_entry_long acc path w :
  65535 < len path + 1 ->
  exists e, encode_entry acc path w = (Raise e, w)
            /\ (e = UnicodeEncodeError \/ e = ValueError \/ e = OSError).
Proof.
  intros Hlong. unfold encode_entry, bind, lift, encode_ascii, read_file.
  destruct (is_ascii path); [|by eauto].
  destruct (has_nul path); [by eauto|].
  assert (name_too_long path = true) as ->
    by (unfold name_too_long; apply N.leb_le; lia).
  by eauto 6.
Qed.

(** C10, as the code has it. [path_len] never wraps: for a path whose
    encoded length plus one exceeds 65535 no iteration yields a record. The
    iteration raises before the [<H] packing is reached: [UnicodeEncodeError]
    from the encoding, or [ValueError] or [OSError] from [open], which no
    system lets open so long a name; the packing itself would raise
    [struct.error] for such a value and never stores it modulo 2^16. So
    every record that is produced ends with a 16-bit field whose value is
    exactly [len(path_bytes)+1]. *)
Theorem path_len_never_wraps (w : world) (sce_entries : bytes) (path : str) :
  (65535 < len (map byte_of_N path) + 1 ->
     (exists e, encode_entry sce_entries path w = (Raise e, w)
                /\ (e = UnicodeEncodeError \/ e = ValueError \/ e = OSError))
     /\ pack_H (len (map byte_of_N path) + 1) = Raise StructError)
  /\ (forall r w', encode_entry sce_entries path w = (Ok r, w') ->
       len (map byte_of_N path) + 1 <= 65535 /\
       le_value (drop (length r - 2) r) = len (map byte_of_N path) + 1).
Proof.
  rewrite len_map. split.
  - intros Hlong. split.
    + by apply encode_entry_long.
    + apply struct_pack_raise. split; [|done].
      change (256 ^ N.of_nat 2) with 65536. lia.
  - intros r w' H. apply encode_entry_ok in H as (f & _ & _ & _ & _ & _ & Hh & -> & _).
    split; [lia|].
    unfold spec_entry. rewrite !app_assoc.
    rewrite length_app. unfold LE16 at 1. rewrite length_le_bytes.
    replace (_ + 2 - 2)%nat with (length ((((sce_entries ++ contents f) ++ LE64 (len (contents f))) ++ map byte_of_N path) ++ [x00])) by lia.
    rewrite drop_app_length, len_map. by apply le_value_le_bytes.
Qed.

Lemma path_len_never_wraps_witness :
  exists e, encode_entry [] long_path long_world = (Raise e, long_world)
            /\ (e = UnicodeEncodeError \/ e = ValueError \/ e = OSError).
Proof.
  destruct (path_len_never_wraps long_world [] long_path) as [Hlong _].
  destruct Hlong as [Hraise _]; [by vm_compute|].
  exact Hraise.
Defined.

(** C10, as stated, fails: on the path of 65535 characters that the walk of
    [long_world] yields, the iteration does not raise at the [<H] packing.
    [open] has already raised [OSError] (file name too long) on line 41. *)
Lemma long_path_counterexample :
  ~ refused_at_packing [] long_path long_world.
Proof.
  intros [w' H].
  destruct (encode_entry_long [] long_path long_world) as (e & He & Hcases);
    [by vm_compute|].
  rewrite He in H. injection H as -> _.
  destruct Hcases as [He'|[He'|He']]; discriminate He'.
Qed.

(** ** Trailer assembly *)

(** C3. Trailer assembly: whenever the assembly yields a trailer, it is the
    records of the entries in order, then [LE32(count)], the identifier's
    bytes, [LE16(1)] and [b"ffpkg"], and it does yield one when every entry
    fits, the identifier is ASCII and the count fits 32 bits; with no entry
    and a 9-character identifier the trailer is the 20-byte footer with count
    0; and for ["PPSA10240"] with the one entry [("a.txt", b"hi")] it is the
    byte string of the scenario. *)
Theorem trailer_assembly :
  (forall (title : str) (paths : list str) (w : world),
     let expected :=
       concat (map (fun e => spec_entry (fst e) (snd e)) (entries_of w paths))
       ++ LE32 (len paths) ++ map byte_of_N title ++ LE16 1 ++ blit "ffpkg" in
     (forall t w', assemble_trailer title paths w = (Ok t, w') -> t = expected)
     /\ (Forall (entry_fits w) paths -> is_ascii title = true -> len paths < 2 ^ 32 ->
         exists w', assemble_trailer title paths w = (Ok expected, w')))
  /\ (forall (title : str) (w : world),
        len title = 9 -> is_ascii title = true ->
        let footer := LE32 0 ++ map byte_of_N title ++ LE16 1 ++ blit "ffpkg" in
        fst (assemble_trailer title [] w) = Ok footer /\ length footer = 20%nat)
  /\ fst (assemble_trailer (lit "PPSA10240") [lit "a.txt"] scenario_world)
     = Ok (blit "hi" ++ LE64 2 ++ blit "a.txt" ++ [x00] ++ LE16 6
           ++ LE32 1 ++ blit "PPSA10240" ++ LE16 1 ++ blit "ffpkg").
Proof.
  split; [|split].
  - intros title paths w expected. split.
    + intros t w' H. apply assemble_trailer_ok in H as (_ & _ & _ & -> & _).
      unfold spec_trailer, spec_footer, spec_entries. by rewrite len_entries_of.
    + intros Hall Hascii Hcount.
      destruct (assemble_trailer_total title paths w Hall Hascii Hcount) as (w' & H & _).
      exists w'. rewrite H.
      unfold spec_trailer, spec_footer, spec_entries. by rewrite len_entries_of.
  - intros title w Hlen Hascii footer. split.
    + destruct (assemble_trailer_total title [] w) as (w' & H & _);
        [constructor | exact Hascii | reflexivity |].
      by rewrite H.
    + unfold footer, LE32, LE16, blit. rewrite !length_app, !length_le_bytes, length_map.
      unfold len in Hlen. simpl. lia.
  - reflexivity.
Qed.

Lemma trailer_assembly_witness :
  fst (assemble_trailer (lit "PPSA10240") [] scenario_world)
  = Ok (LE32 0 ++ blit "PPSA10240" ++ LE16 1 ++ blit "ffpkg").
Proof.
  destruct trailer_assembly as (_ & Hempty & _).
  destruct (Hempty (lit "PPSA10240") scenario_world eq_refl eq_refl) as [H _].
  exact H.
Defined.

(** ** The whole construction *)

Lemma assemble_trailer_files title ps w :
  files (snd (assemble_trailer title ps w)) = files w.
Proof.
  unfold assemble_trailer, bind, lift.
  pose proof (encode_entries_files ps [] w) as Hfiles.
  destruct (encode_entries [] ps w) as [[es|e] w1]; simpl in Hfiles; [|done].
  destruct (pack_H VERSION); [|done].
  destruct (encode_ascii title); [|done].
  destruct (pack_I (len ps)); done.
Qed.

Lemma build_trailer_files title sce w :
  files (snd (build_trailer title sce w)) = files w.
Proof.
  unfold build_trailer. destruct (negb (len title =? 9)); [done|].
  unfold bind, os_walk. by rewrite assemble_trailer_files.
Qed.

Lemma build_trailer_ok title sce w t w1 :
  build_trailer title sce w = (Ok t, w1) ->
  let paths := list_sort (joined_paths (listing w sce)) in
  len title = 9 /\ Forall (entry_fits w) paths /\ is_ascii title = true /\
  len paths < 2 ^ 32 /\
  t = spec_trailer (entries_of w paths) (map byte_of_N title) /\
  files w1 = files w.
Proof.
  unfold build_trailer. destruct (N.eqb_spec (len title) 9) as [Hlen|]; [|done].
  cbn [negb]. unfold bind, os_walk. intros H.
  apply assemble_trailer_ok in H as (Hall & Hascii & Hcount & -> & Hfiles).
  by repeat split.
Qed.

Lemma build_trailer_total title sce w :
  let paths := list_sort (joined_paths (listing w sce)) in
  len title = 9 -> Forall (entry_fits w) paths -> is_ascii title = true ->
  len paths < 2 ^ 32 ->
  exists w1, build_trailer title sce w
             = (Ok (spec_trailer (entries_of w paths) (map byte_of_N title)), w1)
             /\ files w1 = files w.
Proof.
  intros paths Hlen Hall Hascii Hcount.
  unfold build_trailer. rewrite Hlen. cbn [N.eqb Pos.eqb negb]. unfold bind, os_walk.
  destruct (assemble_trailer_total title paths (log (EvWalk sce) w)) as (w1 & H & Hfiles);
    try done.
  exists w1. split; [exact H | exact Hfiles].
Qed.

(** When no trailer is built, nothing is appended or renamed. *)
Lemma create_aborts title sce inp out w :
  is_ok (fst (build_trailer title sce w)) = false ->
  exists e w', create title sce inp out w = (Raise e, w') /\ files w' = files w.
Proof.
  intros Hfail. unfold create, bind.
  pose proof (build_trailer_files title sce w) as Hfiles.
  destruct (build_trailer title sce w) as [[t|e] w1]; [done|].
  by exists e, w1.
Qed.

(** A path among those walked that does not fit stops the construction. *)
Lemma unfit_path_aborts title sce inp out w p :
  p ∈ joined_paths (listing w sce) -> ~ entry_fits w p ->
  exists e w', create title sce inp out w = (Raise e, w') /\ files w' = files w.
Proof.
  intros Hin Hunfit. apply create_aborts.
  destruct (build_trailer title sce w) as [[t|e] w1] eqn:H; [|done].
  apply build_trailer_ok in H as (_ & Hall & _).
  rewrite Forall_forall in Hall. destruct Hunfit. apply Hall.
  by rewrite list_sort_Permutation.
Qed.

(** C6. Identifier length validation: an identifier whose length is not 9
    makes the script raise [ValueError] at once, with the world exactly as it
    was: no file has been opened, nothing has been listed, read, written or
    printed, and the image is untouched. *)
Theorem title_id_length_validation (title sce inp out prog : str) (w : world) :
  len title <> 9 ->
  create title sce inp out w = (Raise ValueError, w)
  /\ main [prog; title; sce; inp; out] w = (Raise ValueError, w).
Proof.
  intros Hlen. cbn [main]. unfold create, bind, build_trailer.
  destruct (N.eqb_spec (len title) 9); done.
Qed.

Lemma title_id_length_validation_witness :
  create (lit "PPSA1024") (lit "d") (lit "a.txt") (lit "out") scenario_world
    = (Raise ValueError, scenario_world)
  /\ create (lit "PPSA102400") (lit "d") (lit "a.txt") (lit "out") scenario_world
    = (Raise ValueError, scenario_world).
Proof.
  split.
  - apply (title_id_length_validation (lit "PPSA1024") (lit "d") (lit "a.txt") (lit "out") []).
    by vm_compute.
  - apply (title_id_length_validation (lit "PPSA102400") (lit "d") (lit "a.txt") (lit "out") []).
    by vm_compute.
Defined.

(** C7. Non-ASCII path rejection: an iteration of the entry loop on a path
    with a code point above 127 raises [UnicodeEncodeError] before anything
    else happens, and a construction whose walk yields such a path ends with
    an exception and with every file, the image included, as it was. *)
Theorem non_ascii_path_rejected (w : world) (path : str) :
  is_ascii path = false ->
  (forall sce_entries,
     encode_entry sce_entries path w = (Raise UnicodeEncodeError, w))
  /\ (forall title sce inp out,
       path ∈ joined_paths (listing w sce) ->
       exists e w', create title sce inp out w = (Raise e, w') /\ files w' = files w).
Proof.
  intros Hascii. split.
  - intros acc. unfold encode_entry, bind, lift, encode_ascii. by rewrite Hascii.
  - intros title sce inp out Hin. apply (unfit_path_aborts _ _ _ _ _ path Hin).
    intros (Hok & _). congruence.
Qed.

(** C9. Embedded NUL rejection: an iteration of the entry loop on a path
    with a NUL character raises and leaves the world as it was, so no record
    with that path is produced; when the path is ASCII the exception is the
    [ValueError] of [open]. A construction whose walk yields such a path
    ends with an exception and with every file as it was. *)
Theorem embedded_nul_rejected (w : world) (path : str) :
  has_nul path = true ->
  (forall sce_entries,
     exists e, encode_entry sce_entries path w = (Raise e, w)
               /\ (is_ascii path = true -> e = ValueError))
  /\ (forall title sce inp out,
       path ∈ joined_paths (listing w sce) ->
       exists e w', create title sce inp out w = (Raise e, w') /\ files w' = files w).
Proof.
  intros Hnul. split.
  - intros acc. unfold encode_entry, bind, lift, encode_ascii, read_file.
    destruct (is_ascii path); rewrite ?Hnul; eauto.
    exists UnicodeEncodeError. by split.
  - intros title sce inp out Hin. apply (unfit_path_aborts _ _ _ _ _ path Hin).
    intros (_ & Hok & _). congruence.
Qed.

Lemma non_ascii_path_rejected_witness :
  exists e w',
    create (lit "PPSA10240") (lit "d") (lit "img") (lit "out") non_ascii_world = (Raise e, w')
    /\ files w' = files non_ascii_world.
Proof.
  destruct (non_ascii_path_rejected non_ascii_world (lit "d/" ++ non_ascii_name) eq_refl)
    as [_ Hrun].
  apply (Hrun (lit "PPSA10240") (lit "d") (lit "img") (lit "out")).
  vm_compute. apply list_elem_of_here.
Defined.

Lemma embedded_nul_rejected_witness :
  exists e,
    encode_entry [] nul_name nul_world = (Raise e, nul_world)
    /\ (is_ascii nul_name = true -> e = ValueError).
Proof.
  destruct (embedded_nul_rejected nul_world nul_name eq_refl) as [Hentry _].
  apply (Hentry []).
Defined.

(** ** What the construction leaves alone *)

Lemma with_trace_id w : w = with_trace (trace w) w.
Proof. by destruct w. Qed.

Lemma keeps_ret {A} (a : A) : keeps_system (ret a).
Proof. intros w. exists (trace w). apply with_trace_id. Qed.

Lemma keeps_lift {A} (r : result A) : keeps_system (lift r).
Proof. intros w. exists (trace w). apply with_trace_id. Qed.

Lemma keeps_bind {A B} (m : M A) (k : A -> M B) :
  keeps_system m -> (forall a, keeps_system (k a)) -> keeps_system (bind m k).
Proof.
  intros Hm Hk w. unfold bind. destruct (Hm w) as [tr Htr].
  destruct (m w) as [[a|e] w1]; simpl in Htr; subst w1; [|by exists tr].
  destruct (Hk a (with_trace tr w)) as [tr' Htr']. exists tr'. by rewrite Htr'.
Qed.

Lemma keeps_print line : keeps_system (print line).
Proof.
  intros w. unfold print. destruct (printable w line).
  - by eexists.
  - exists (trace w). apply with_trace_id.
Qed.

Lemma keeps_read_file p : keeps_system (read_file p).
Proof.
  intros w. unfold read_file.
  destruct (has_nul p); [exists (trace w); apply with_trace_id|].
  destruct (name_too_long p); [exists (trace w); apply with_trace_id|].
  destruct (files w !! p) as [f|]; [|exists (trace w); apply with_trace_id].
  destruct (can_read f); [by eexists | exists (trace w); apply with_trace_id].
Qed.

Lemma keeps_encode_entry acc p : keeps_system (encode_entry acc p).
Proof.
  unfold encode_entry.
  apply keeps_bind; [apply keeps_lift|]. intros pb.
  apply keeps_bind; [apply keeps_read_file|]. intros d.
  apply keeps_bind; [apply keeps_lift|]. intros q.
  apply keeps_bind; [apply keeps_lift|]. intros h.
  apply keeps_bind; [apply keeps_print|]. intros _. apply keeps_ret.
Qed.

Lemma keeps_encode_entries ps : forall acc, keeps_system (encode_entries acc ps).
Proof.
  induction ps as [|p ps IH]; intros acc; [apply keeps_ret|].
  cbn [encode_entries]. apply keeps_bind; [apply keeps_encode_entry | apply IH].
Qed.

Lemma keeps_build_trailer title sce : keeps_system (build_trailer title sce).
Proof.
  unfold build_trailer. destruct (negb (len title =? 9)).
  { intros w. exists (trace w). apply with_trace_id. }
  apply keeps_bind; [by eexists|]. intros items. unfold assemble_trailer.
  apply keeps_bind; [apply keeps_encode_entries|]. intros es.
  apply keeps_bind; [apply keeps_lift|]. intros v.
  apply keeps_bind; [apply keeps_lift|]. intros t.
  apply keeps_bind; [apply keeps_lift|]. intros c. apply keeps_ret.
Qed.

(** ** Determinism *)

(** What reading a file yields does not depend on the I/O done so far. *)
Lemma read_file_with_trace p tr w :
  fst (read_file p (with_trace tr w)) = fst (read_file p w).
Proof.
  unfold read_file.
  change (files (with_trace tr w)) with (files w).
  change (absent_error (with_trace tr w)) with (absent_error w).
  destruct (has_nul p); [done|]. destruct (name_too_long p); [done|].
  destruct (files w !! p) as [f|]; [|done]. by destruct (can_read f).
Qed.

(** What an iteration yields depends on the world only through what reading
    the file yields. *)
Lemma encode_entry_same acc p w1 w2 :
  fst (read_file p w1) = fst (read_file p w2) ->
  fst (encode_entry acc p w1) = fst (encode_entry acc p w2).
Proof.
  unfold encode_entry, bind, lift.
  destruct (encode_ascii p) as [pb|e] eqn:Hpb; [|done].
  apply encode_ascii_ok in Hpb as [Hascii _].
  destruct (read_file p w1) as [[d1|e1] v1], (read_file p w2) as [[d2|e2] v2];
    simpl; intros Hread; try discriminate Hread; injection Hread as <-; [|done].
  destruct (pack_Q (len d1)); [|done].
  destruct (pack_H (len pb + 1)); [|done].
  by rewrite !print_ascii by by apply is_ascii_entry_line.
Qed.

Lemma encode_entries_same ps : forall acc w1 w2,
  (forall p, p ∈ ps -> fst (read_file p w1) = fst (read_file p w2)) ->
  fst (encode_entries acc ps w1) = fst (encode_entries acc ps w2).
Proof.
  induction ps as [|p ps IH]; intros acc w1 w2 Hread; [done|].
  cbn [encode_entries]. unfold bind.
  pose proof (encode_entry_same acc p w1 w2 (Hread p (list_elem_of_here _ _))) as Hp.
  destruct (keeps_encode_entry acc p w1) as [tr1 Hf1].
  destruct (keeps_encode_entry acc p w2) as [tr2 Hf2].
  destruct (encode_entry acc p w1) as [[r1|e1] v1], (encode_entry acc p w2) as [[r2|e2] v2];
    simpl in *; try discriminate Hp; injection Hp as <-; [|done].
  subst v1 v2. apply IH. intros q Hq.
  rewrite !read_file_with_trace.
  apply Hread. by apply list_elem_of_further.
Qed.

Lemma assemble_trailer_same title ps w1 w2 :
  (forall p, p ∈ ps -> fst (read_file p w1) = fst (read_file p w2)) ->
  fst (assemble_trailer title ps w1) = fst (assemble_trailer title ps w2).
Proof.
  intros Hread. unfold assemble_trailer, bind, lift.
  pose proof (encode_entries_same ps [] w1 w2 Hread) as Hes.
  destruct (encode_entries [] ps w1) as [[r1|e1] v1], (encode_entries [] ps w2) as [[r2|e2] v2];
    cbn [fst] in Hes; try discriminate Hes; injection Hes as <-; [|done].
  destruct (pack_H VERSION); [|done].
  destruct (encode_ascii title); [|done].
  by destruct (pack_I (len ps)).
Qed.

(** C5. Determinism: two runs with the same identifier over directories
    that hold the same paths, each path reading the same in both (the same
    bytes, or the same refusal), end with the same trailer, byte for byte (or
    with the same exception), whatever order each walk yields the paths in
    and whatever else differs between the two systems, because the paths are
    sorted before they are encoded. *)
Theorem determinism (title sce : str) (w1 w2 : world) :
  joined_paths (listing w1 sce) ≡ₚ joined_paths (listing w2 sce) ->
  (forall p, p ∈ joined_paths (listing w1 sce) ->
     fst (read_file p w1) = fst (read_file p w2)) ->
  fst (build_trailer title sce w1) = fst (build_trailer title sce w2).
Proof.
  intros Hperm Hread.
  unfold build_trailer. destruct (negb (len title =? 9)); [done|].
  unfold bind, os_walk. cbn [fst snd listing log].
  rewrite <- (list_sort_order_independent _ _ Hperm).
  apply assemble_trailer_same. intros p Hp.
  rewrite list_sort_Permutation in Hp.
  unfold log. rewrite !read_file_with_trace.
  by apply Hread.
Qed.

Lemma determinism_witness :
  fst (build_trailer (lit "PPSA10240") (lit "sce_sys") example_world)
  = fst (build_trailer (lit "PPSA10240") (lit "sce_sys") example_world_other_image)
  /\ is_ok (fst (build_trailer (lit "PPSA10240") (lit "sce_sys") example_world)) = true.
Proof.
  split; [|reflexivity].
  apply (determinism (lit "PPSA10240") (lit "sce_sys")
           example_world example_world_other_image).
  - apply perm_swap.
  - intros p Hp.
    apply elem_of_cons in Hp as [->|Hp]; [reflexivity|].
    apply elem_of_cons in Hp as [->|Hp]; [reflexivity|].
    apply elem_of_cons in Hp as [->|Hp]; [reflexivity|].
    by apply elem_of_nil in Hp.
Defined.

(** ** Appending to the image *)

Lemma inode_of_spec w p i f :
  inode_of w p = Some (i, f) <-> names w p = Some i /\ store w !! i = Some f.
Proof.
  unfold inode_of. destruct (names w p) as [j|]; [|by split; [|intros [? _]]].
  destruct (store w !! j) as [g|] eqn:Hg; split.
  - by intros [= <- <-].
  - intros [[= <-] Hf]. rewrite Hg in Hf. by injection Hf as <-.
  - done.
  - intros [[= <-] Hf]. by rewrite Hg in Hf.
Qed.

Lemma files_unfold w p :
  files w !! p = match names w p with Some i => store w !! i | None => None end.
Proof. reflexivity. Qed.

Lemma files_inode_of w p : files w !! p = snd <$> inode_of w p.
Proof.
  rewrite files_unfold. unfold inode_of.
  destruct (names w p) as [j|]; [|done]. by destruct (store w !! j).
Qed.

Lemma files_names w p i : names w p = Some i -> files w !! p = store w !! i.
Proof. intros H. by rewrite files_unfold, H. Qed.

Lemma write_to_ok p d ns i f w w' :
  write_to p d ns i f w = (Ok tt, w') ->
  len d <= room w /\
  w' = log (EvAppend p d)
         (set_fs ns (<[i := File (contents f ++ d) (can_read f) (can_write f)]> (store w)) w).
Proof.
  unfold write_to, accepted. destruct (N.leb_spec (len d) (room w)); [|done].
  by intros [= <-].
Qed.

(** A successful append: the file existed and was writable, or it was
    created under a fresh inode. *)
Lemma append_file_ok p d w w' :
  append_file p d w = (Ok tt, w') ->
  has_nul p = false /\ name_too_long p = false /\ len d <= room w /\
  ((exists i f, inode_of w p = Some (i, f) /\ can_write f = true /\
      w' = log (EvAppend p d)
             (set_fs (names w)
                (<[i := File (contents f ++ d) (can_read f) (can_write f)]> (store w)) w))
   \/ (inode_of w p = None /\ create_error w p = None /\
       w' = log (EvAppend p d)
              (set_fs (<[p := Some (fresh (dom (store w)))]> (names w))
                 (<[fresh (dom (store w)) := File d true true]> (store w)) w))).
Proof.
  unfold append_file. destruct (has_nul p); [done|]. destruct (name_too_long p); [done|].
  destruct (inode_of w p) as [[i f]|].
  - destruct (can_write f) eqn:Hw; [|done]. intros H.
    apply write_to_ok in H as [Hroom ->]. repeat split; try done. left. by exists i, f.
  - destruct (create_error w p) as [e|] eqn:He; [done|]. intros H.
    apply write_to_ok in H as [Hroom ->]. repeat split; try done. by right.
Qed.

(** After a successful append the name leads to the appended file. *)
Lemma append_file_result p d w w' :
  append_file p d w = (Ok tt, w') ->
  exists i, inode_of w' p = Some (i, appended (files w !! p) d) /\
            trace w' = trace w ++ [EvAppend p d] /\
            rename_error w' = rename_error w /\ stdout_encodes w' = stdout_encodes w /\
            is_link w' = is_link w.
Proof.
  intros H. apply append_file_ok in H as (_ & _ & _ & [(i & f & Hi & _ & ->)|(Hi & _ & ->)]).
  - exists i. rewrite files_inode_of, Hi. apply inode_of_spec in Hi as [Hn _].
    repeat split; try done. apply inode_of_spec. simpl. split; [done|].
    by rewrite lookup_insert_eq.
  - exists (fresh (dom (store w))). rewrite files_inode_of, Hi.
    repeat split; try done. apply inode_of_spec. simpl. split.
    + by rewrite fn_lookup_insert.
    + by rewrite lookup_insert_eq.
Qed.

(** A successful rename: [dst] leads to the file [src] led to, unless
    [src] is a symbolic link. *)
Lemma os_rename_ok src dst w w' :
  os_rename src dst w = (Ok tt, w') ->
  exists i f, inode_of w src = Some (i, f) /\
              (is_link w src = false -> inode_of w' dst = Some (i, f)) /\
              store w' = store w /\ trace w' = trace w ++ [EvRename src dst] /\
              stdout_encodes w' = stdout_encodes w /\
              (names w dst = Some i /\ names w' = names w
               \/ rename_error w src dst = None /\
                  exists target,
                    names w' = <[dst := target]> (<[src := None]> (names w))).
Proof.
  unfold os_rename. destruct (has_nul src || has_nul dst); [done|].
  destruct (name_too_long src || name_too_long dst); [done|].
  destruct (inode_of w src) as [[i f]|] eqn:Hi; [|done].
  pose proof Hi as [Hn Hs]%inode_of_spec.
  destruct (bool_decide (names w dst = Some i) && same_entry w src dst) eqn:Hsame.
  - apply andb_true_iff in Hsame as [Hsame%bool_decide_eq_true _].
    intros [= <-]. exists i, f. repeat split; try done.
    + intros _. by apply inode_of_spec.
    + by left.
  - destruct (rename_error w src dst) as [e|] eqn:He; [done|].
    intros [= <-]. exists i, f. repeat split; try done.
    + intros ->. apply inode_of_spec. simpl. by rewrite fn_lookup_insert.
    + right. split; [done|]. by eexists.
Qed.

(** The steps of a successful construction. *)
Lemma create_steps title sce inp out w w' :
  create title sce inp out w = (Ok tt, w') ->
  exists t w1 w2 w3,
    build_trailer title sce w = (Ok t, w1) /\
    append_file inp t w1 = (Ok tt, w2) /\
    os_rename inp out w2 = (Ok tt, w3) /\
    printable w3 (done_line out) = true /\
    w' = log (EvPrint (done_line out)) w3.
Proof.
  unfold create. intros H.
  apply bind_ok in H as (t & w1 & Hbuild & H).
  apply bind_ok in H as ([] & w2 & Happ & H).
  apply bind_ok in H as ([] & w3 & Hren & H).
  apply print_ok in H as [Hprint ->]. by exists t, w1, w2, w3.
Qed.

Lemma build_trailer_keeps title sce w t w1 :
  build_trailer title sce w = (Ok t, w1) -> exists tr, w1 = with_trace tr w.
Proof.
  intros H. destruct (keeps_build_trailer title sce w) as [tr Htr].
  rewrite H in Htr. by exists tr.
Qed.

(** What a successful construction leaves under the output name, and the
    I/O it ends with. *)
Lemma create_ok title sce inp out w w' :
  create title sce inp out w = (Ok tt, w') ->
  exists t w1,
    build_trailer title sce w = (Ok t, w1) /\
    (is_link w inp = false -> files w' !! out = Some (appended (files w !! inp) t)) /\
    trace w' = trace w1 ++ [EvAppend inp t; EvRename inp out; EvPrint (done_line out)].
Proof.
  intros H. apply create_steps in H as (t & w1 & w2 & w3 & Hbuild & Happ & Hren & _ & ->).
  exists t, w1. split; [done|].
  destruct (build_trailer_keeps _ _ _ _ _ Hbuild) as [tr ->].
  apply append_file_result in Happ as (i & Hi & Htrace & _ & _ & Hlink).
  apply os_rename_ok in Hren as (i' & f & Hi' & Hout & _ & Htrace' & _).
  rewrite Hi in Hi'. injection Hi' as <- <-. split.
  - intros Hno. rewrite Hlink in Hout.
    change (files (log (EvPrint (done_line out)) w3) !! out) with (files w3 !! out).
    by rewrite files_inode_of, Hout.
  - simpl. rewrite Htrace', Htrace. simpl. by rewrite <- !app_assoc.
Qed.

(** ** What the construction reads *)




(** ** Non-destructive append *)





(** The image is read through any name that leads to it: named as
    [./d/img], it is walked and read as [d/img], and the output holds it
    twice, once as the image and once inside the trailer. *)
Lemma image_read_through_another_spelling :
  exists output,
    files (snd (create (lit "PPSA10240") (lit "d") (lit "./d/img") (lit "out")
                  other_spelling_world)) !! lit "out" = Some output
    /\ take 10 (contents output) = blit "IMAGEIMAGE".
Proof. eexists. split; reflexivity. Qed.

(** [open] follows a symbolic link and [os.rename] moves it: with the image
    named through the relative link [link.img] and the output in another
    directory, the trailer is appended to [real.img], and the output name
    holds the moved link, which leads nowhere. *)
Lemma image_named_through_a_link :
  let w' := snd (create (lit "PPSA10240") (lit "d") (lit "link.img") (lit "sub/out")
                   linked_image_world) in
  fst (create (lit "PPSA10240") (lit "d") (lit "link.img") (lit "sub/out")
         linked_image_world) = Ok tt
  /\ files w' !! lit "sub/out" = None
  /\ contents <$> files w' !! lit "real.img"
     = Some (blit "IMAGE" ++ LE32 0 ++ blit "PPSA10240" ++ LE16 1 ++ blit "ffpkg").
Proof. by vm_compute. Qed.

(** ** A missing or read-only image *)




(** ** Reading a trailer backward *)

Lemma step_back_at buf pre x suf cursor n :
  buf = pre ++ x ++ suf -> cursor = len pre + len x -> n = len x ->
  step_back buf cursor n = inr (x, len pre).
Proof.
  intros -> -> ->. unfold step_back.
  destruct (N.leb_spec (len x) (len pre + len x)) as [_|]; [|lia].
  replace (len pre + len x - len x) with (len pre) by lia.
  unfold segment, len. rewrite !Nat2N.id.
  by rewrite drop_app_length, take_app_length.
Qed.

Lemma strip_nul_snoc p : strip_nul (p ++ [x00]) = p.
Proof. unfold strip_nul. by rewrite last_snoc, removelast_last. Qed.

Lemma spec_entries_snoc es pb d :
  spec_entries (es ++ [(pb, d)]) = spec_entries es ++ spec_entry pb d.
Proof.
  unfold spec_entries. rewrite map_app, concat_app. simpl. by rewrite app_nil_r.
Qed.

(** One backward read of the field [x] that lies between [pre] and [suf]. *)
Ltac read_field pre x suf :=
  match goal with
  | |- context [step_back ?buf ?c ?n] =>
      rewrite (step_back_at buf pre x suf c n);
      [ | by rewrite <- ?app_assoc, ?app_nil_r
        | unfold LE16, LE32, LE64; rewrite ?len_app, ?len_le_bytes;
          unfold len in *; simpl length; lia
        | unfold LE16, LE32, LE64; rewrite ?len_app, ?len_le_bytes;
          unfold len in *; simpl length; lia ]
  end.

Lemma decode_entries_spec es :
  Forall fits_fields es ->
  forall pre suf acc,
    decode_entries (pre ++ spec_entries es ++ suf) (length es)
      (len pre + len (spec_entries es)) acc
    = inr (decoded_entries es ++ acc, len pre).
Proof.
  induction es as [|[pb d] es IH] using rev_ind; intros Hfits pre suf acc.
  - simpl. f_equal. f_equal. unfold spec_entries, len. simpl. lia.
  - apply Forall_app in Hfits as [Hes Hfit]. apply Forall_cons in Hfit as [[Hh Hq] _].
    simpl in Hh, Hq.
    rewrite spec_entries_snoc, length_app, Nat.add_1_r. cbn [decode_entries].
    unfold spec_entry.
    read_field (pre ++ spec_entries es ++ d ++ LE64 (len d) ++ pb ++ [x00])
               (LE16 (len pb + 1)) suf.
    unfold LE16 at 2. rewrite (le_value_le_bytes 2) by done.
    read_field (pre ++ spec_entries es ++ d ++ LE64 (len d))
               (pb ++ [x00]) (LE16 (len pb + 1) ++ suf).
    read_field (pre ++ spec_entries es ++ d) (LE64 (len d))
               ((pb ++ [x00]) ++ LE16 (len pb + 1) ++ suf).
    unfold LE64 at 2. rewrite (le_value_le_bytes 8) by done.
    read_field (pre ++ spec_entries es) d
               (LE64 (len d) ++ (pb ++ [x00]) ++ LE16 (len pb + 1) ++ suf).
    rewrite strip_nul_snoc, len_app.
    replace (pre ++ (spec_entries es ++ d ++ LE64 (len d) ++ pb ++ [x00] ++ LE16 (len pb + 1)) ++ suf)
      with (pre ++ spec_entries es ++ (d ++ LE64 (len d) ++ pb ++ [x00] ++ LE16 (len pb + 1)) ++ suf)
      by by rewrite <- !app_assoc.
    rewrite IH by done. unfold decoded_entries. rewrite map_app. simpl.
    by rewrite <- app_assoc.
Qed.

(** The reader of section 4.4 recovers what a well-formed trailer holds. *)
Lemma decode_spec_trailer image es tb :
  Forall fits_fields es -> len es < 2 ^ 32 -> len tb = 9 ->
  decode (image ++ spec_trailer es tb)
  = inr (Container image (decoded_entries es) (code_points tb) 1).
Proof.
  intros Hfits Hcount Htitle. unfold decode, spec_trailer, spec_footer.
  read_field (image ++ spec_entries es ++ LE32 (len es) ++ tb ++ LE16 VERSION)
             (blit "ffpkg") (@nil byte).
  rewrite bool_decide_eq_true_2 by done. cbn [negb].
  read_field (image ++ spec_entries es ++ LE32 (len es) ++ tb)
             (LE16 VERSION) (blit "ffpkg").
  change (le_value (LE16 VERSION)) with 1. cbn [N.eqb Pos.eqb negb].
  read_field (image ++ spec_entries es ++ LE32 (len es)) tb
             (LE16 VERSION ++ blit "ffpkg").
  read_field (image ++ spec_entries es) (LE32 (len es))
             (tb ++ LE16 VERSION ++ blit "ffpkg").
  unfold LE32 at 2. rewrite (le_value_le_bytes 4) by done.
  replace (N.to_nat (len es)) with (length es) by (unfold len; by rewrite Nat2N.id).
  rewrite len_app, decode_entries_spec by done.
  rewrite app_nil_r. do 2 f_equal.
  unfold segment, len. rewrite Nat2N.id. simpl. apply take_app_length.
Qed.

(** ** Round trip *)

Lemma entries_of_fits w ps :
  Forall (entry_fits w) ps -> Forall fits_fields (entries_of w ps).
Proof.
  intros Hall. unfold entries_of. rewrite List.Forall_map.
  eapply Forall_impl; [exact Hall|].
  intros p (_ & _ & f & Hf & _ & Hq & Hh). unfold fits_fields, content_of. simpl.
  by rewrite len_map, Hf.
Qed.

Lemma decoded_entries_of w ps :
  Forall (entry_fits w) ps ->
  decoded_entries (entries_of w ps) = map (fun p => (p, content_of w p)) ps.
Proof.
  induction 1 as [|p ps (Hascii & _) _ IH]; [done|].
  unfold decoded_entries, entries_of in *. simpl.
  by rewrite code_points_encode, IH.
Qed.

(** C1. Round trip: for an ordered list of paths and a 9-character
    identifier, the reader of section 4.4 applied to an image followed by the
    trailer the script assembles gives back the image, the (path, content)
    pairs in the same order, the identifier and version 1; the script does
    assemble a trailer whenever the identifier is ASCII, every path fits and
    the count fits 32 bits. Empty contents and an empty list are
    included. *)
Theorem round_trip (title : str) (paths : list str) (w : world) (image : bytes) :
  len title = 9 ->
  (forall trailer w',
     assemble_trailer title paths w = (Ok trailer, w') ->
     decode (image ++ trailer)
     = inr (Container image (map (fun p => (p, content_of w p)) paths) title VERSION))
  /\ (is_ascii title = true -> Forall (entry_fits w) paths -> len paths < 2 ^ 32 ->
      exists trailer w', assemble_trailer title paths w = (Ok trailer, w')).
Proof.
  intros Hlen. split.
  - intros trailer w' H.
    apply assemble_trailer_ok in H as (Hall & Hascii & Hcount & -> & _).
    rewrite decode_spec_trailer.
    + by rewrite decoded_entries_of, code_points_encode.
    + by apply entries_of_fits.
    + by rewrite len_entries_of.
    + by rewrite len_map.
  - intros Hascii Hall Hcount.
    destruct (assemble_trailer_total title paths w Hall Hascii Hcount) as (w' & H & _).
    eauto.
Qed.

Lemma round_trip_witness :
  decode (blit "IMAGE" ++ example_trailer)
  = inr (Container (blit "IMAGE")
           [(lit "sce_sys/about/empty", []);
            (lit "sce_sys/icon0.png", blit "PNG");
            (lit "sce_sys/param.json", blit "{}")]
           (lit "PPSA10240") 1).
Proof.
  destruct (round_trip (lit "PPSA10240") example_paths example_world (blit "IMAGE") eq_refl)
    as [Hdecode _].
  apply (Hdecode example_trailer
           (snd (assemble_trailer (lit "PPSA10240") example_paths example_world))).
  by vm_compute.
Defined.

(** The degenerate trailer, the 20-byte footer alone, decodes to no entry. *)
Lemma round_trip_empty (title : str) (image : bytes) :
  len title = 9 -> is_ascii title = true ->
  decode (image ++ spec_footer 0 (map byte_of_N title))
  = inr (Container image [] title VERSION).
Proof.
  intros Hlen Hascii.
  change (spec_footer 0 (map byte_of_N title)) with (spec_trailer [] (map byte_of_N title)).
  rewrite decode_spec_trailer; [|constructor|done|by rewrite len_map].
  by rewrite code_points_encode.
Qed.

(** End to end: the file a successful run leaves under the output name
    decodes to the image as it was found and to the walked files in sorted
    order, with the contents they had. *)
Lemma create_round_trip (title sce inp out : str) (w w' : world) (img : file) :
  files w !! inp = Some img -> is_link w inp = false ->
  create title sce inp out w = (Ok tt, w') ->
  exists output,
    files w' !! out = Some output /\
    decode (contents output)
    = inr (Container (contents img)
             (map (fun p => (p, content_of w p)) (list_sort (joined_paths (listing w sce))))
             title VERSION).
Proof.
  intros Himg Hno Hrun.
  apply create_ok in Hrun as (t & w1 & Hbuild & Hout & _).
  specialize (Hout Hno).
  apply build_trailer_ok in Hbuild as (Hlen & Hall & Hascii & Hcount & -> & _).
  exists (appended (Some img) (spec_trailer
            (entries_of w (list_sort (joined_paths (listing w sce)))) (map byte_of_N title))).
  rewrite Hout, Himg. split; [done|]. simpl.
  rewrite decode_spec_trailer.
  - by rewrite decoded_entries_of, code_points_encode.
  - by apply entries_of_fits.
  - by rewrite len_entries_of.
  - by rewrite len_map.
Qed.

(** * Further properties of the script *)

(** ** The argument check *)

Lemma usage_run w :
  usage w = (Raise (SystemExit 1), with_trace (trace w ++ map EvPrint usage_lines) w).
Proof.
  unfold usage, bind. rewrite !print_ascii by reflexivity.
  unfold raise, log, with_trace. simpl. by rewrite <- !app_assoc.
Qed.

(** X1. With any number of command-line words other than five (the script
    name and four arguments) the script prints the five usage lines and
    exits with status 1; it lists, reads, writes and renames nothing. *)
Theorem wrong_argument_count (argv : list str) (w : world) :
  length argv <> 5%nat ->
  exists w',
    main argv w = (Raise (SystemExit 1), w') /\
    files w' = files w /\
    trace w' = trace w ++ map EvPrint usage_lines.
Proof.
  intros Hlen.
  exists (with_trace (trace w ++ map EvPrint usage_lines) w).
  split; [|done].
  destruct argv as [|a0 [|a1 [|a2 [|a3 [|a4 [|a5 rest]]]]]];
    try apply usage_run.
  done.
Qed.

Lemma wrong_argument_count_witness :
  exists w',
    main [lit "ffpkg_create.py"; lit "PPSA10240"; lit "sce_sys"] example_world
      = (Raise (SystemExit 1), w')
    /\ files w' = files example_world.
Proof.
  destruct (wrong_argument_count
              [lit "ffpkg_create.py"; lit "PPSA10240"; lit "sce_sys"] example_world)
    as (w' & Hrun & Hfiles & _).
  { simpl. lia. }
  by exists w'.
Defined.

(** ** The paths that are encoded *)

Lemma replace_backslash_clean s : 92 ∉ replace_backslash s.
Proof.
  unfold replace_backslash. intros Hin.
  apply list_elem_of_In, in_map_iff in Hin as (c & Hc & _).
  destruct (N.eqb_spec c 92); [done | congruence].
Qed.

Lemma joined_paths_clean items p : p ∈ joined_paths items -> 92 ∉ p.
Proof.
  unfold joined_paths. intros Hin.
  apply list_elem_of_In, in_flat_map in Hin as ([[root dirs] names] & _ & Hin).
  apply in_map_iff in Hin as (name & <- & _). apply replace_backslash_clean.
Qed.

(** X2. No path that reaches the entry loop holds a backslash: whatever the
    directory walk yields, line 29 has turned every backslash of the joined
    path into a slash before the paths are sorted and encoded. *)
Theorem encoded_paths_have_no_backslash (items : list walk_item) (p : str) :
  p ∈ list_sort (joined_paths items) -> 92 ∉ p.
Proof.
  rewrite list_sort_Permutation. apply joined_paths_clean.
Qed.

Lemma encoded_paths_have_no_backslash_witness :
  lit "sce_sys/trophy/a/b.png" ∈ list_sort (joined_paths backslash_items)
  /\ 92 ∉ lit "sce_sys/trophy/a/b.png".
Proof.
  assert (lit "sce_sys/trophy/a/b.png" ∈ list_sort (joined_paths backslash_items)) as Hin.
  { vm_compute. apply list_elem_of_here. }
  split; [exact Hin|].
  exact (encoded_paths_have_no_backslash backslash_items _ Hin).
Defined.

Lemma has_nul_Forall s : has_nul s = false -> Forall (fun c => 0 < c) s.
Proof.
  unfold has_nul. induction s as [|c s IH]; simpl; [constructor|].
  intros H. apply orb_false_iff in H as [Hc Hs].
  constructor; [destruct c; [discriminate Hc | lia] | by apply IH].
Qed.

(** X3. In every record the entry loop produces, the path field, which
    lies between the 8 bytes of the size and the 2 bytes of the length, is
    the path's bytes, all from 1 to 127, followed by the NUL of line 50: that
    terminator is the only NUL of the field, so the path ends at the first
    NUL a reader meets. *)
Theorem path_field_is_nul_free (sce_entries : bytes) (path : str) (w w' : world)
    (r : bytes) :
  encode_entry sce_entries path w = (Ok r, w') ->
  let path_bytes := map byte_of_N path in
  r = sce_entries ++ content_of w path ++ LE64 (len (content_of w path))
      ++ (path_bytes ++ [x00]) ++ LE16 (len path_bytes + 1)
  /\ Forall (fun b => 0 < Byte.to_N b < 128) path_bytes.
Proof.
  intros H path_bytes.
  apply encode_entry_ok in H as (f & Hascii & Hnul & Hf & _ & _ & _ & -> & _).
  split.
  - unfold spec_entry, content_of. rewrite Hf. by rewrite <- !app_assoc.
  - apply is_ascii_Forall in Hascii. apply has_nul_Forall in Hnul.
    unfold path_bytes. rewrite List.Forall_map. rewrite Forall_forall in *. intros c Hc.
    specialize (Hascii c Hc). specialize (Hnul c Hc). simpl in *.
    rewrite to_N_byte_of_N by lia. lia.
Qed.

Lemma path_field_is_nul_free_witness :
  Forall (fun b => 0 < Byte.to_N b < 128) (map byte_of_N (lit "a.txt")).
Proof.
  destruct (path_field_is_nul_free [] (lit "a.txt") scenario_world
              (snd (encode_entry [] (lit "a.txt") scenario_world))
              (blit "hi" ++ LE64 2 ++ blit "a.txt" ++ [x00] ++ LE16 6))
    as [_ Hfield].
  { by vm_compute. }
  exact Hfield.
Defined.



Lemma os_rename_names src dst w w' :
  os_rename src dst w = (Ok tt, w') ->
  has_nul src = false /\ has_nul dst = false /\
  name_too_long src = false /\ name_too_long dst = false.
Proof.
  unfold os_rename.
  destruct (has_nul src), (has_nul dst); try done.
  by destruct (name_too_long src), (name_too_long dst).
Qed.

Lemma printable_encodes w w' line :
  stdout_encodes w' = stdout_encodes w -> printable w' line = printable w line.
Proof. unfold printable. by intros ->. Qed.

(** X5. What a successful construction implies: the identifier has 9
    characters, all ASCII; every walked path is ASCII without NUL, names a
    readable file and gives length fields that fit; fewer than 2^32 files
    were walked; neither the image name nor the output name has a NUL; the
    image, if it exists, may be written, and if it does not, the system let
    it be created; and standard output can encode the final line. *)
Theorem create_succeeds_only_if (title sce inp out : str) (w w' : world) :
  create title sce inp out w = (Ok tt, w') ->
  len title = 9 /\ is_ascii title = true /\
  Forall (entry_fits w) (joined_paths (listing w sce)) /\
  len (joined_paths (listing w sce)) < 2 ^ 32 /\
  has_nul inp = false /\ has_nul out = false /\
  match files w !! inp with
  | Some f => can_write f = true
  | None => create_error w inp = None
  end /\
  printable w (done_line out) = true.
Proof.
  pose proof (list_sort_Permutation (joined_paths (listing w sce))) as Hperm.
  assert (len (list_sort (joined_paths (listing w sce))) = len (joined_paths (listing w sce)))
    as Hcount by (unfold len; by rewrite (Permutation_length Hperm)).
  intros H.
  apply create_steps in H as (t & w1 & w2 & w3 & Hbuild & Happ & Hren & Hprint & _).
  destruct (build_trailer_keeps _ _ _ _ _ Hbuild) as [tr ->].
  apply build_trailer_ok in Hbuild as (Hlen & Hall & Hascii & Hlt & _).
  rewrite Hperm in Hall. rewrite Hcount in Hlt.
  pose proof (os_rename_names _ _ _ _ Hren) as (_ & Hnul' & _).
  apply os_rename_ok in Hren as (_ & _ & _ & _ & _ & _ & Henc3 & _).
  pose proof (append_file_result _ _ _ _ Happ) as (_ & _ & _ & _ & Henc2 & _).
  apply append_file_ok in Happ as (Hnul & _ & _ & Hcases).
  repeat split; try done.
  - rewrite files_inode_of.
    destruct Hcases as [(i & f & Hi & Hw & _)|(Hi & He & _)].
    + change (inode_of (with_trace tr w) inp) with (inode_of w inp) in Hi. by rewrite Hi.
    + change (inode_of (with_trace tr w) inp) with (inode_of w inp) in Hi. by rewrite Hi.
  - rewrite <- Hprint. symmetry. apply printable_encodes. by rewrite Henc3, Henc2.
Qed.

Lemma create_succeeds_only_if_witness :
  Forall (entry_fits example_world) (joined_paths (listing example_world (lit "sce_sys")))
  /\ printable example_world (done_line (lit "snake.ffpkg")) = true.
Proof.
  destruct (create_succeeds_only_if (lit "PPSA10240") (lit "sce_sys") (lit "snake.img")
              (lit "snake.ffpkg") example_world
              (snd (create (lit "PPSA10240") (lit "sce_sys") (lit "snake.img")
                      (lit "snake.ffpkg") example_world)))
    as (_ & _ & Hall & _ & _ & _ & _ & Hprint).
  { by vm_compute. }
  split; [exact Hall | exact Hprint].
Defined.

(** ** The files the script changes *)

Lemma write_to_store p d ns i f w j :
  j <> i -> store (snd (write_to p d ns i f w)) !! j = store w !! j.
Proof.
  intros Hj. unfold write_to. destruct (len d <=? room w); simpl;
    by rewrite lookup_insert_ne.
Qed.

Lemma append_file_store path d w j g :
  store w !! j = Some g -> names w path <> Some j ->
  store (snd (append_file path d w)) !! j = Some g.
Proof.
  intros Hj Hother. unfold append_file.
  destruct (has_nul path); [done|]. destruct (name_too_long path); [done|].
  destruct (inode_of w path) as [[i f]|] eqn:Hi.
  - apply inode_of_spec in Hi as [Hn _].
    destruct (can_write f); [|done].
    rewrite write_to_store; [done|]. intros ->. by rewrite Hn in Hother.
  - destruct (create_error w path); [done|].
    rewrite write_to_store; [done|]. intros ->.
    apply (is_fresh (dom (store w))). apply elem_of_dom. by exists g.
Qed.

Lemma os_rename_store src dst w : store (snd (os_rename src dst w)) = store w.
Proof.
  unfold os_rename. destruct (has_nul src || has_nul dst); [done|].
  destruct (name_too_long src || name_too_long dst); [done|].
  destruct (inode_of w src) as [[i f]|]; [|done].
  destruct (bool_decide (names w dst = Some i) && same_entry w src dst); [done|].
  by destruct (rename_error w src dst).
Qed.

Lemma print_store line w : store (snd (print line w)) = store w.
Proof. unfold print. by destruct (printable w line). Qed.

(** X6. However a run ends, with success or with any exception, every
    file other than the image file and the file the output name led to has
    the content and the permissions it had: the auxiliary files are only
    read. Files are told apart by identity, not by the spelling of a
    path. *)
Theorem other_files_untouched (title sce inp out : str) (w : world) (j : N) (g : file) :
  store w !! j = Some g ->
  names w inp <> Some j -> names w out <> Some j ->
  store (snd (create title sce inp out w)) !! j = Some g.
Proof.
  intros Hj Hinp _. unfold create, bind.
  destruct (keeps_build_trailer title sce w) as [tr Htr].
  destruct (build_trailer title sce w) as [[t|e] w1]; simpl in Htr; subst w1; [|done].
  pose proof (append_file_store inp t (with_trace tr w) j g Hj Hinp) as Happ.
  destruct (append_file inp t (with_trace tr w)) as [[[]|e] w2]; simpl in Happ; [|done].
  pose proof (os_rename_store inp out w2) as Hren.
  destruct (os_rename inp out w2) as [[[]|e] w3]; simpl in Hren; simpl.
  - by rewrite print_store, Hren.
  - by rewrite Hren.
Qed.

Lemma other_files_untouched_witness :
  store (snd (create (lit "PPSA10240") (lit "sce_sys") (lit "snake.img")
                (lit "snake.ffpkg") example_world)) !! 1
  = Some (File (blit "PNG") true true).
Proof.
  apply (other_files_untouched (lit "PPSA10240") (lit "sce_sys") (lit "snake.img")
           (lit "snake.ffpkg") example_world 1 (File (blit "PNG") true true)).
  - reflexivity.
  - by vm_compute.
  - by vm_compute.
Defined.

(** X7. The image is renamed, not copied: after a successful run, unless
    the output name already led to the image file, the image name no longer
    names any file. *)
Theorem image_moves_to_output (title sce inp out : str) (w w' : world) (img : file) :
  files w !! inp = Some img ->
  names w out <> names w inp ->
  create title sce inp out w = (Ok tt, w') ->
  files w' !! inp = None.
Proof.
  intros Himg Hne H.
  apply create_steps in H as (t & w1 & w2 & w3 & Hbuild & Happ & Hren & _ & ->).
  destruct (build_trailer_keeps _ _ _ _ _ Hbuild) as [tr ->].
  rewrite files_inode_of in Himg.
  apply append_file_ok in Happ as (_ & _ & _ & [(i & f & Hi & _ & ->)|(Hi & _)]).
  2:{ change (inode_of (with_trace tr w) inp) with (inode_of w inp) in Hi.
      by rewrite Hi in Himg. }
  apply os_rename_ok in Hren as (i' & f' & Hi' & _ & _ & _ & _ & Hcases).
  apply inode_of_spec in Hi as [Hn _]. apply inode_of_spec in Hi' as [Hn' _].
  simpl in Hn, Hn'. rewrite Hn in Hn'. injection Hn' as <-.
  change (files (log (EvPrint (done_line out)) w3) !! inp) with (files w3 !! inp).
  rewrite files_unfold.
  destruct Hcases as [[Hsame _]|[_ [target ->]]].
  - simpl in Hsame. by rewrite Hsame, Hn in Hne.
  - rewrite fn_lookup_insert_ne by (intros ->; by destruct Hne).
    by rewrite fn_lookup_insert.
Qed.

Lemma image_moves_to_output_witness :
  files (snd (create (lit "PPSA10240") (lit "sce_sys") (lit "snake.img")
                (lit "snake.ffpkg") example_world)) !! lit "snake.img" = None.
Proof.
  apply (image_moves_to_output (lit "PPSA10240") (lit "sce_sys") (lit "snake.img")
           (lit "snake.ffpkg") example_world _ (File (blit "IMAGE") true true)).
  - reflexivity.
  - by vm_compute.
  - by vm_compute.
Defined.

(** ** The I/O of a successful run *)

Lemma encode_entries_trace ps : forall acc w r w',
  encode_entries acc ps w = (Ok r, w') ->
  trace w' = trace w ++ flat_map (entry_events w) ps.
Proof.
  induction ps as [|p ps IH]; intros acc w r w' H.
  - injection H as _ <-. simpl. by rewrite app_nil_r.
  - cbn [encode_entries] in H. apply bind_ok in H as (r1 & w1 & H1 & H).
    apply encode_entry_ok in H1 as (f & _ & _ & Hf & _ & _ & _ & _ & ->).
    apply IH in H. rewrite H. cbn [flat_map trace log with_trace].
    assert (entry_events w p = [EvRead p; EvPrint (entry_line p (len (contents f)))]) as ->
      by (unfold entry_events, content_of; by rewrite Hf).
    rewrite <- !app_assoc. reflexivity.
Qed.

Lemma assemble_trailer_trace title ps w t w' :
  assemble_trailer title ps w = (Ok t, w') ->
  trace w' = trace w ++ flat_map (entry_events w) ps.
Proof.
  unfold assemble_trailer. intros H.
  apply bind_ok in H as (es & w1 & Hes & H). apply encode_entries_trace in Hes.
  apply bind_ok in H as (v & w2 & Hv & H). injection Hv as _ <-.
  apply bind_ok in H as (tb & w3 & Htb & H). injection Htb as _ <-.
  apply bind_ok in H as (c & w4 & Hc & H). injection Hc as _ <-.
  by injection H as _ <-.
Qed.

(** X8. The I/O of a successful run, in order: the directory is walked;
    each walked path is opened for reading once, in sorted order, and its
    line is printed with the size of the file; then the whole trailer is
    appended through the image name in one write, the image name is renamed
    to the output name and the final line is printed. *)
Theorem io_of_a_successful_run (title sce inp out : str) (w w' : world) :
  create title sce inp out w = (Ok tt, w') ->
  exists t,
    fst (build_trailer title sce w) = Ok t /\
    trace w' = trace w
               ++ [EvWalk sce]
               ++ flat_map (entry_events w) (list_sort (joined_paths (listing w sce)))
               ++ [EvAppend inp t; EvRename inp out; EvPrint (done_line out)].
Proof.
  intros H. apply create_ok in H as (t & w1 & Hbuild & _ & Htrace).
  exists t. rewrite Hbuild. split; [done|]. rewrite Htrace.
  unfold build_trailer in Hbuild. destruct (negb (len title =? 9)); [done|].
  unfold bind, os_walk in Hbuild. apply assemble_trailer_trace in Hbuild.
  rewrite Hbuild. simpl. by rewrite <- !app_assoc.
Qed.

Lemma io_of_a_successful_run_witness :
  exists t,
    trace (snd (create (lit "PPSA10240") (lit "d") (lit "img") (lit "out") one_file_world))
    = [EvWalk (lit "d"); EvRead (lit "d/a.txt");
       EvPrint (lit "  + d/a.txt (2 bytes)");
       EvAppend (lit "img") t; EvRename (lit "img") (lit "out");
       EvPrint (done_line (lit "out"))].
Proof.
  destruct (io_of_a_successful_run (lit "PPSA10240") (lit "d") (lit "img") (lit "out")
              one_file_world
              (snd (create (lit "PPSA10240") (lit "d") (lit "img") (lit "out")
                      one_file_world)))
    as (t & _ & Htrace).
  { by vm_compute. }
  exists t. rewrite Htrace. reflexivity.
Defined.

(** ** The size and the end of the trailer *)


Lemma len_spec_footer count tb : len (spec_footer count tb) = len tb + 11.
Proof.
  unfold spec_footer, LE32, LE16. rewrite !len_app, !len_le_bytes.
  unfold len. simpl length. lia.
Qed.



(** X10. The footer is at a fixed distance from the end of the file: for any
    image, the last 20 bytes of the image followed by the trailer are the
    file count on 4 bytes (little-endian, the number of walked files), the
    9 bytes of the identifier, the version 1 on 2 bytes and [ffpkg]. *)
Theorem footer_at_fixed_offset (title sce : str) (w w1 : world) (t image : bytes) :
  build_trailer title sce w = (Ok t, w1) ->
  let container := image ++ t in
  let footer := drop (length container - 20) container in
  footer = LE32 (len (joined_paths (listing w sce)))
           ++ map byte_of_N title ++ LE16 1 ++ blit "ffpkg"
  /\ le_value (take 4 footer) = len (joined_paths (listing w sce))
  /\ length (map byte_of_N title) = 9%nat.
Proof.
  intros H container footer.
  apply build_trailer_ok in H as (Hlen & _ & _ & Hcount & Ht & _).
  assert (len (list_sort (joined_paths (listing w sce))) = len (joined_paths (listing w sce)))
    as Hsame by (unfold len; by rewrite (Permutation_length (list_sort_Permutation _))).
  assert (length (map byte_of_N title) = 9%nat) as Htitle
    by (rewrite length_map; unfold len in Hlen; lia).
  assert (footer = spec_footer (len (joined_paths (listing w sce))) (map byte_of_N title))
    as Hfooter.
  { unfold footer, container. rewrite Ht. unfold spec_trailer.
    rewrite len_entries_of, Hsame, !app_assoc.
    apply drop_app_length'. rewrite !length_app.
    pose proof (len_spec_footer (len (joined_paths (listing w sce))) (map byte_of_N title)) as Hf.
    rewrite len_map, Hlen in Hf. unfold len in *. lia. }
  split; [exact Hfooter | split; [|exact Htitle]].
  rewrite Hfooter. unfold spec_footer.
  rewrite take_app_length' by (unfold LE32; by rewrite length_le_bytes).
  apply le_value_le_bytes. by rewrite <- Hsame.
Qed.

Lemma footer_at_fixed_offset_witness :
  drop (length (blit "IMAGE" ++ example_trailer) - 20) (blit "IMAGE" ++ example_trailer)
  = LE32 3 ++ blit "PPSA10240" ++ LE16 1 ++ blit "ffpkg".
Proof.
  destruct (footer_at_fixed_offset (lit "PPSA10240") (lit "sce_sys") example_world
              (snd (build_trailer (lit "PPSA10240") (lit "sce_sys") example_world))
              example_trailer (blit "IMAGE"))
    as [Hfooter _].
  { by vm_compute. }
  rewrite Hfooter. reflexivity.
Defined.

(** ** Late and absent checks *)

(** X11. An identifier of 9 characters that is not ASCII passes the length
    check of line 22 and is refused only on line 57: the run ends with an
    exception and no file has changed, and when every walked file could be
    encoded the exception is [UnicodeEncodeError], raised after all of them
    have been read. *)
Theorem non_ascii_title_rejected_late (title sce inp out : str) (w : world) :
  len title = 9 -> is_ascii title = false ->
  (exists e w', create title sce inp out w = (Raise e, w') /\ files w' = files w)
  /\ (Forall (entry_fits w) (joined_paths (listing w sce)) ->
      exists w', create title sce inp out w = (Raise UnicodeEncodeError, w') /\
        trace w' = trace w ++ [EvWalk sce]
                   ++ flat_map (entry_events w) (list_sort (joined_paths (listing w sce)))).
Proof.
  intros Hlen Hascii. split.
  - apply create_aborts.
    destruct (build_trailer title sce w) as [[t|e] w1] eqn:H; [|done].
    apply build_trailer_ok in H as (_ & _ & Hok & _). congruence.
  - intros Hall.
    set (ps := list_sort (joined_paths (listing w sce))).
    destruct (encode_entries_total ps [] (log (EvWalk sce) w)) as (w1 & Hrun & _).
    { unfold ps. by rewrite list_sort_Permutation. }
    exists w1. split.
    + unfold create, bind, build_trailer. rewrite Hlen. cbn [N.eqb Pos.eqb negb].
      unfold bind, os_walk, assemble_trailer, bind. fold ps. rewrite Hrun.
      unfold lift, encode_ascii. by rewrite Hascii.
    + apply encode_entries_trace in Hrun. rewrite Hrun. simpl.
      by rewrite <- !app_assoc.
Qed.

Lemma non_ascii_title_rejected_late_witness :
  fst (create non_ascii_title (lit "sce_sys") (lit "snake.img") (lit "snake.ffpkg")
         example_world) = Raise UnicodeEncodeError.
Proof.
  destruct (non_ascii_title_rejected_late non_ascii_title (lit "sce_sys") (lit "snake.img")
              (lit "snake.ffpkg") example_world eq_refl eq_refl) as [_ Hlate].
  destruct Hlate as (w' & Hrun & _).
  { repeat constructor; by eexists (File _ true true). }
  by rewrite Hrun.
Defined.

(** X12. A directory in which the walk finds no file, one that does not
    exist included, is not an error: the trailer is then the footer alone,
    with a file count of 0. *)
Theorem empty_walk_gives_bare_footer (title sce : str) (w : world) :
  joined_paths (listing w sce) = [] ->
  len title = 9 -> is_ascii title = true ->
  build_trailer title sce w
  = (Ok (LE32 0 ++ map byte_of_N title ++ LE16 1 ++ blit "ffpkg"), log (EvWalk sce) w).
Proof.
  intros Hempty Hlen Hascii.
  unfold build_trailer. rewrite Hlen. cbn [N.eqb Pos.eqb negb].
  unfold bind, os_walk. cbn [listing log]. rewrite Hempty.
  unfold assemble_trailer, bind, lift, encode_ascii. simpl. by rewrite Hascii.
Qed.

Lemma empty_walk_gives_bare_footer_witness :
  fst (build_trailer (lit "PPSA10240") (lit "no_such_dir") example_world)
  = Ok (LE32 0 ++ blit "PPSA10240" ++ LE16 1 ++ blit "ffpkg").
Proof.
  rewrite (empty_walk_gives_bare_footer (lit "PPSA10240") (lit "no_such_dir") example_world
             eq_refl eq_refl eq_refl).
  reflexivity.
Defined.

Lemma accepted_prefix w d : accepted w d `prefix_of` d.
Proof.
  unfold accepted. destruct (len d <=? room w); [done|].
  exists (drop (N.to_nat (room w)) d). by rewrite take_drop.
Qed.

Lemma append_file_cases path d w :
  (is_ok (fst (append_file path d w)) = false /\ snd (append_file path d w) = w)
  \/ EvAppend path (accepted w d) ∈ trace (snd (append_file path d w)).
Proof.
  assert (forall ns i f,
            EvAppend path (accepted w d) ∈ trace (snd (write_to path d ns i f w))) as Hwrite.
  { intros ns i f. unfold write_to. destruct (len d <=? room w); simpl;
      rewrite elem_of_app, list_elem_of_singleton; by right. }
  unfold append_file.
  destruct (has_nul path); [by left|]. destruct (name_too_long path); [by left|].
  destruct (inode_of w path) as [[i f]|].
  - destruct (can_write f); [by right | by left].
  - destruct (create_error w path); [by left | by right].
Qed.

Lemma os_rename_trace src dst w e :
  e ∈ trace w -> e ∈ trace (snd (os_rename src dst w)).
Proof.
  intros He. unfold os_rename. destruct (has_nul src || has_nul dst); [done|].
  destruct (name_too_long src || name_too_long dst); [done|].
  destruct (inode_of w src) as [[i f]|]; [|done].
  destruct (bool_decide (names w dst = Some i) && same_entry w src dst).
  { simpl. rewrite elem_of_app. by left. }
  destruct (rename_error w src dst); [done|].
  simpl. rewrite elem_of_app. by left.
Qed.

Lemma print_trace line w e : e ∈ trace w -> e ∈ trace (snd (print line w)).
Proof.
  intros He. unfold print. destruct (printable w line); [|done].
  simpl. rewrite elem_of_app. by left.
Qed.

(** X13. Nothing is written before the whole trailer is built: whenever a
    run, however it ends, leaves any name or any file other than it found
    them, the complete trailer had been built first, and the bytes written
    through the image name are that trailer or, when the system cut the
    write short, a beginning of it. *)
Theorem writes_only_a_built_trailer (title sce inp out : str) (w : world) :
  let w' := snd (create title sce inp out w) in
  (names w' = names w /\ store w' = store w)
  \/ exists t d, fst (build_trailer title sce w) = Ok t /\
                 d `prefix_of` t /\ EvAppend inp d ∈ trace w'.
Proof.
  intros w'. unfold w', create, bind.
  destruct (keeps_build_trailer title sce w) as [tr Htr].
  destruct (build_trailer title sce w) as [[t|e] w1]; simpl in Htr; subst w1; [|by left].
  destruct (append_file_cases inp t (with_trace tr w)) as [[Hfail Hsame]|Hin].
  - destruct (append_file inp t (with_trace tr w)) as [[[]|e] w2]; [done|].
    simpl in Hsame. subst w2. by left.
  - right. exists t, (accepted w t). split; [done|]. split; [apply accepted_prefix|].
    change (accepted (with_trace tr w) t) with (accepted w t) in Hin.
    destruct (append_file inp t (with_trace tr w)) as [[[]|e] w2]; [|done].
    simpl in Hin. apply (os_rename_trace inp out) in Hin.
    destruct (os_rename inp out w2) as [[[]|e] w3]; [|done].
    simpl in Hin. by apply print_trace.
Qed.
